(** * Tools_Maximum: the grid and sequence helpers of [tools.py]

    A shallow embedding of [src/tools.py] and the properties of its
    operations.  Python values are modelled as follows.

    - [int] is [Z]; a character is its Unicode code point ([N]); a [str] is
      the list of its code points.
    - A raised exception is the [Raise] case of [result]; an exception
      instance that is merely returned is an ordinary value.
    - An object the caller can observe after the call (the [StringGrid]
      passed to the grid functions, the [matches] list passed to [select])
      is the state of a small state-and-error monad [M]. *)

From Stdlib Require Import ZArith NArith List String Ascii Bool Lia.
From Stdlib Require Import DecimalString DecimalZ.
From stdpp Require Import base list gmap.

Local Open Scope Z_scope.

(** ** Python runtime: exceptions, results, the monad *)

Inductive exn : Type := IndexError | TypeError | KeyError | ValueError.

Inductive result (A : Type) : Type :=
| Ok (a : A)
| Raise (e : exn).
Arguments Ok {A} a.
Arguments Raise {A} e.

Definition rbind {A B} (r : result A) (k : A -> result B) : result B :=
  match r with
  | Ok a => k a
  | Raise e => Raise e
  end.

Notation "'let?' x := r 'in' k" := (rbind r (fun x => k))
  (at level 10, x name, r at level 100, k at level 200).

Section StateMonad.
Context {S : Type}.

Definition M (A : Type) : Type := S -> result A * S.

Definition ret {A} (a : A) : M A := fun s => (Ok a, s).

Definition raise {A} (e : exn) : M A := fun s => (Raise e, s).

Definition bind {A B} (m : M A) (k : A -> M B) : M B :=
  fun s => match m s with
           | (Ok a, s') => k a s'
           | (Raise e, s') => (Raise e, s')
           end.

Definition get : M S := fun s => (Ok s, s).

Definition put (s' : S) : M unit := fun _ => (Ok tt, s').

Definition lift {A} (r : result A) : M A := fun s => (r, s).

(** A computation that never writes the object it runs on. *)
Definition readonly {A} (m : M A) : Prop := forall s, snd (m s) = s.
End StateMonad.
Arguments M : clear implicits.

Notation "'do' x <- m ; k" := (bind m (fun x => k))
  (at level 10, x name, m at level 100, k at level 200).

(** ** Python runtime: characters and text *)

Abbreviation char := N (only parsing).
Abbreviation pystr := (list N) (only parsing).

(** A literal of the source, as the list of its code points. *)
Definition txt (s : string) : pystr := map N_of_ascii (list_ascii_of_string s).

Definition LF : char := 10%N.
Definition CR : char := 13%N.

Definition len {A} (l : list A) : Z := Z.of_nat (length l).

(** [l[i]]: a negative index counts from the end; out of range raises. *)
Definition py_index {A} (l : list A) (i : Z) : result nat :=
  let j := if i <? 0 then i + len l else i in
  if (j <? 0) || (len l <=? j) then Raise IndexError else Ok (Z.to_nat j).

Definition py_getitem {A} (l : list A) (i : Z) : result A :=
  let? j := py_index l i in
  match l !! j with
  | Some a => Ok a
  | None => Raise IndexError
  end.

(** [l[i] = v] on a list. *)
Definition py_setitem {A} (l : list A) (i : Z) (v : A) : result (list A) :=
  let? j := py_index l i in Ok (<[j := v]> l).

(** [range(n)]. *)
Definition py_range (n : Z) : list Z := Z.of_nat <$> seq 0 (Z.to_nat n).

(** The line boundaries of [str.splitlines]: the code points 10 to 13, 28 to
    30, 133 (next line), 8232 (line separator) and 8233 (paragraph separator);
    a carriage return followed by a line feed is one boundary. *)
Definition is_linebreak (c : char) : bool :=
  existsb (N.eqb c) [10; 11; 12; 13; 28; 29; 30; 133; 8232; 8233]%N.

(** [s.splitlines()]: the lines without their boundaries; a boundary at the
    very end opens no further line. *)
Fixpoint splitlines (s : pystr) : list pystr :=
  match s with
  | [] => []
  | c :: s' =>
      if is_linebreak c then
        [] :: match s' with
              | c' :: s'' =>
                  if (c =? CR)%N && (c' =? LF)%N then splitlines s''
                  else splitlines s'
              | [] => []
              end
      else
        match splitlines s' with
        | [] => [[c]]
        | l :: ls => (c :: l) :: ls
        end
  end.

(** [sep.join(parts)]. *)
Fixpoint py_join (sep : pystr) (parts : list pystr) : pystr :=
  match parts with
  | [] => []
  | [p] => p
  | p :: ps => p ++ sep ++ py_join sep ps
  end.

(** [s.split(sep)] for a one-character separator. *)
Fixpoint py_split (sep : char) (s : pystr) : list pystr :=
  match s with
  | [] => [[]]
  | c :: s' =>
      if (c =? sep)%N then [] :: py_split sep s'
      else match py_split sep s' with
           | [] => [[c]]
           | l :: ls => (c :: l) :: ls
           end
  end.

(** [s.lower()].  Only the ASCII letters are mapped: the result is compared
    with the four ASCII keywords alone, and no text holding a code point
    outside ASCII lowers to one of them. *)
Definition lower_char (c : char) : char :=
  if (65 <=? c)%N && (c <=? 90)%N then (c + 32)%N else c.

Definition lower (s : pystr) : pystr := map lower_char s.

Definition pystr_eqb (a b : pystr) : bool := bool_decide (a = b).

(** [str(n)] for an [int]: the decimal digits, with a leading minus sign. *)
Definition str_of_int (z : Z) : pystr := txt (NilZero.string_of_int (Z.to_int z)).

(** The text as a [string], when every code point is below 256. *)
Fixpoint to_string (s : pystr) : option string :=
  match s with
  | [] => Some EmptyString
  | c :: s' =>
      if (c <? 256)%N then
        match to_string s' with
        | Some r => Some (String (ascii_of_N c) r)
        | None => None
        end
      else None
  end.

(** [int(s)] for a text: an optional minus sign and ASCII decimal digits.
    This is the fragment [str_of_int] produces, the only texts the source
    converts. *)
Definition int_of_text (s : pystr) : result Z :=
  match to_string s with
  | Some r =>
      match NilZero.int_of_string r with
      | Some d => Ok (Z.of_int d)
      | None => Raise ValueError
      end
  | None => Raise ValueError
  end.

(** ** class StringGrid *)

Record StringGrid : Type := {
  grid : pystr;
  width : Z;
  height : Z
}.

(** [StringGrid.__init__]: the width is the length of the first row (an
    [IndexError] when there is none), the height the number of rows. *)
Definition StringGrid_init (g : pystr) : result StringGrid :=
  let? row0 := py_getitem (splitlines g) 0 in
  Ok {| grid := g; width := len row0; height := len (splitlines g) |}.

(** [StringGrid.grab]: [self.grid.splitlines()[y][x]]. *)
Definition grab (x y : Z) : M StringGrid char :=
  do self <- get;
  lift (let? row := py_getitem (splitlines (grid self)) y in
        py_getitem row x).

(** ** find_grid_item *)

(** The inner loop, over the columns still to visit in row [y]. *)
Fixpoint find_in_row (item : char) (y : Z) (cols : list Z)
  : M StringGrid (option (Z * Z)) :=
  match cols with
  | [] => ret None
  | x2 :: cols' =>
      do c <- grab x2 y;
      if (c =? item)%N then ret (Some (x2, y))
      else find_in_row item y cols'
  end.

(** The outer loop, over the rows still to visit. *)
Fixpoint find_in_rows (item : char) (rows : list Z)
  : M StringGrid (option (Z * Z)) :=
  match rows with
  | [] => ret None
  | y :: rows' =>
      do self <- get;
      do r <- find_in_row item y (py_range (width self));
      match r with
      | Some p => ret (Some p)
      | None => find_in_rows item rows'
      end
  end.

Definition find_grid_item (item : char) : M StringGrid (option (Z * Z)) :=
  do self <- get;
  find_in_rows item (py_range (height self)).

(** ** bounds *)

Definition bounds : M StringGrid pystr :=
  do self <- get;
  ret (str_of_int (width self) ++ txt "x" ++ str_of_int (height self)).

(** ** swipe *)

Definition OOB : pystr := txt "OOB".

(** [directs[d]]: a missing key raises [KeyError]. *)
Definition directs (d : pystr) : result Z :=
  if pystr_eqb d (txt "left") then Ok (-1)
  else if pystr_eqb d (txt "right") then Ok 1
  else if pystr_eqb d (txt "up") then Ok (-1)
  else if pystr_eqb d (txt "down") then Ok 1
  else Raise KeyError.

(** [w, h = map(int, parts)]: exactly two values, each converted; any other
    count is a [ValueError], as is a text [int] rejects. *)
Definition unpack_ints (parts : list pystr) : result (Z * Z) :=
  match parts with
  | [a; b] => let? w := int_of_text a in let? h := int_of_text b in Ok (w, h)
  | _ => Raise ValueError
  end.

(** [item[0]], [item[1]] and [list(item)] on the result of [find_grid_item]:
    [None] supports none of them. *)
Definition coordinate (item : option (Z * Z)) : result (Z * Z) :=
  match item with
  | Some p => Ok p
  | None => Raise TypeError
  end.

(** [rx[i][j] = v]: the row object [rx[i]] is updated in place. *)
Definition set_cell (rx : list pystr) (i j : Z) (v : char) : result (list pystr) :=
  let? row := py_getitem rx i in
  let? row' := py_setitem row j v in
  py_setitem rx i row'.

(** The two steps [dx] and [dy] of a direction already in lower case. *)
Definition steps (direction : pystr) : result (Z * Z) :=
  if pystr_eqb direction (txt "left") || pystr_eqb direction (txt "right")
  then let? d := directs direction in Ok (d, 0)
  else let? d := directs direction in Ok (0, d).

Definition swipe (character : char) (direction : pystr) (blankness : char)
  : M StringGrid pystr :=
  do self <- get;
  let rx := splitlines (grid self) in
  let direction := lower direction in
  do item <- find_grid_item character;
  do b <- bounds;
  do wh <- lift (unpack_ints (py_split 120%N b));
  let '(w, h) := wh in
  do d <- lift (steps direction);
  let '(dx, dy) := d in
  do it <- lift (coordinate item);
  let new_x := fst it + dy in
  let new_y := snd it + dx in
  if (new_x <? 0) || (new_x >=? h) || (new_y <? 0) || (new_y >=? w) then
    ret OOB
  else
    do rx1 <- lift (set_cell rx new_x new_y character);
    do rx2 <- lift (set_cell rx1 (fst it) (snd it) blankness);
    ret (py_join [LF] rx2).

(** ** look *)

(** The loop over the letters of [lookwhere], on the pair [ch]. *)
Fixpoint walk (ch : Z * Z) (lookwhere : pystr) : result (Z * Z) :=
  match lookwhere with
  | [] => Ok ch
  | letter :: rest =>
      if (letter =? 85)%N then walk (fst ch, snd ch - 1) rest
      else if (letter =? 68)%N then walk (fst ch, snd ch + 1) rest
      else if (letter =? 76)%N then walk (fst ch - 1, snd ch) rest
      else if (letter =? 82)%N then walk (fst ch + 1, snd ch) rest
      else Raise ValueError
  end.

Definition look (character : char) (lookwhere : pystr) : M StringGrid pystr :=
  do item <- find_grid_item character;
  do ch0 <- lift (coordinate item);
  do ch <- lift (walk ch0 lookwhere);
  do self <- get;
  if (fst ch <? 0) || (fst ch >? width self)
     || (snd ch <? 0) || (snd ch >? height self) then
    ret OOB
  else
    do c <- grab (fst ch) (snd ch);
    ret [c].

(** ** select *)

(** The elements a sequence holds, and the sequences [select] is given. *)
Inductive elem : Type :=
| EInt (z : Z)
| EBool (b : bool)
| EStr (s : pystr).

Inductive pyseq : Type :=
| SStr (s : pystr)
| SList (l : list elem)
| STuple (l : list elem).

(** The entries of [matches]: "conditions (as integers)", so [int] objects
    and [bool] objects, [bool] being a subclass of [int]. *)
Inductive flag : Type :=
| FInt (z : Z)
| FBool (b : bool).

(** What [select] hands back: a sequence, or an exception instance. *)
Inductive selected : Type :=
| Sequence (p : pyseq)
| Instance (e : exn) (message : pystr).

Definition int_of_bool (b : bool) : Z := if b then 1 else 0.

(** [int(item)] on an entry of [matches]. *)
Definition int_of_flag (f : flag) : Z :=
  match f with
  | FInt z => z
  | FBool b => int_of_bool b
  end.

(** [str(item)]. *)
Definition str_of_elem (item : elem) : pystr :=
  match item with
  | EInt z => str_of_int z
  | EBool b => if b then txt "True" else txt "False"
  | EStr s => s
  end.

(** [len(x)] and the items [x] yields when iterated. *)
Definition items (x : pyseq) : list elem :=
  match x with
  | SStr s => map (fun c => EStr [c]) s
  | SList l => l
  | STuple l => l
  end.

(** [type(like)(item)].  In [select] the item is [x[index]] itself, so the
    constructor is applied to a value of its own type; the other cases are
    listed for completeness, [int] of a text through [int_of_text]. *)
Definition recast (like item : elem) : result elem :=
  match like, item with
  | EInt _, EInt z => Ok (EInt z)
  | EInt _, EBool b => Ok (EInt (int_of_bool b))
  | EInt _, EStr s => let? z := int_of_text s in Ok (EInt z)
  | EBool _, EInt z => Ok (EBool (negb (z =? 0)))
  | EBool _, EBool b => Ok (EBool b)
  | EBool _, EStr s => Ok (EBool (negb (bool_decide (s = []))))
  | EStr _, _ => Ok (EStr (str_of_elem item))
  end.

(** [for index, item in enumerate(matches): matches[index] = int(item)],
    over the indices still to visit; the list iterator reads the live list. *)
Fixpoint to_ints (indices : list nat) : M (list flag) unit :=
  match indices with
  | [] => ret tt
  | index :: rest =>
      do matches <- get;
      match matches !! index with
      | Some item =>
          do _ <- put (<[index := FInt (int_of_flag item)]> matches);
          to_ints rest
      | None => ret tt
      end
  end.

(** [for index, item in enumerate(x): if matches[index] >= 1: p += str(item)]. *)
Fixpoint pick (entries : list (nat * elem)) (p : pystr) : M (list flag) pystr :=
  match entries with
  | [] => ret p
  | (index, item) :: rest =>
      do matches <- get;
      do f <- lift (py_getitem matches (Z.of_nat index));
      if int_of_flag f >=? 1 then pick rest (p ++ str_of_elem item)
      else pick rest p
  end.

Definition enumerate {A} (l : list A) : list (nat * A) :=
  combine (seq 0 (length l)) l.

(** [for index, item in enumerate(x[:len(p)]): p[index] = type(x[index])(item)]
    on a list [p]. *)
Fixpoint restore (x : list elem) (entries : list (nat * elem)) (p : list elem)
  : result (list elem) :=
  match entries with
  | [] => Ok p
  | (index, item) :: rest =>
      let? like := py_getitem x (Z.of_nat index) in
      let? v := recast like item in
      let? p' := py_setitem p (Z.of_nat index) v in
      restore x rest p'
  end.

(** The same loop on a tuple [p]: the first assignment raises. *)
Definition restore_tuple (x : list elem) (entries : list (nat * elem))
  (p : list elem) : result (list elem) :=
  match entries with
  | [] => Ok p
  | (index, item) :: _ =>
      let? like := py_getitem x (Z.of_nat index) in
      let? v := recast like item in
      Raise TypeError
  end.

Definition chars (p : pystr) : list elem := map (fun c => EStr [c]) p.

Definition select (x : pyseq) : M (list flag) selected :=
  do matches <- get;
  if len matches =? len (items x) then
    do _ <- to_ints (seq 0 (length matches));
    do p <- pick (enumerate (items x)) [];
    match x with
    | SStr _ => ret (Sequence (SStr p))
    | SList l =>
        do q <- lift (restore l (enumerate (take (length (chars p)) l)) (chars p));
        ret (Sequence (SList q))
    | STuple l =>
        do q <- lift (restore_tuple l (enumerate (take (length (chars p)) l)) (chars p));
        ret (Sequence (STuple q))
    end
  else
    ret (Instance IndexError (txt "Length of matches not length of x")).

(** ** take_while *)

Section TakeWhile.
Context {A : Type} (condition : A -> bool).

(** The generator object: suspended before the items still to read, or
    finished for good. *)
Inductive generator : Type :=
| Suspended (rest : list A)
| Finished.

Definition take_while (iterable : list A) : generator := Suspended iterable.

(** [next(g)]: the item yielded, or [None] for [StopIteration]. *)
Definition next (g : generator) : option A * generator :=
  match g with
  | Finished => (None, Finished)
  | Suspended [] => (None, Finished)
  | Suspended (item :: rest) =>
      if negb (condition item) then (None, Finished)
      else (Some item, Suspended rest)
  end.

(** [list(g)]: call [next] until [StopIteration]; [None] when the fuel
    runs out first. *)
Fixpoint drain (fuel : nat) (g : generator) : option (list A * generator) :=
  match fuel with
  | O => None
  | S fuel' =>
      match next g with
      | (None, g') => Some ([], g')
      | (Some item, g') =>
          match drain fuel' g' with
          | Some (l, g'') => Some (item :: l, g'')
          | None => None
          end
      end
  end.
End TakeWhile.
Arguments Suspended {A} rest.
Arguments Finished {A}.

(** ** make_grid *)

(** [s * n] on a text and [[v] * n] on a list: [n] copies, none when [n] is
    not positive. *)
Definition py_repeat_text (s : pystr) (n : Z) : pystr :=
  concat (replicate (Z.to_nat n) s).

Definition py_repeat_list {A} (v : A) (n : Z) : list A :=
  replicate (Z.to_nat n) v.

Definition make_grid (length_ width_ : Z) (character : pystr) : pystr :=
  py_join [LF] (py_repeat_list (py_repeat_text character width_) length_).

(** ** joint *)

(** [''.join(i)]: every item has to be a text. *)
Fixpoint join_texts (i : list elem) : result pystr :=
  match i with
  | [] => Ok []
  | EStr s :: rest => let? t := join_texts rest in Ok (s ++ t)
  | _ :: _ => Raise TypeError
  end.

Definition joint (x x2 : pyseq) : result pyseq :=
  let i := items x ++ items x2 in
  match x with
  | SStr _ => let? s := join_texts i in Ok (SStr s)
  | SList _ => Ok (SList i)
  | STuple _ => Ok (STuple i)
  end.

(** ** listmap *)

(** The loop of [listmap] over the argument tuples still to visit, with the
    results appended so far; a call that raises ends it. *)
Fixpoint listmap_loop {A B} (f : A -> result B) (args : list A) (r : list B)
  : result (list B) :=
  match args with
  | [] => Ok r
  | item :: rest => let? v := f item in listmap_loop f rest (r ++ [v])
  end.

Definition listmap {A B} (f : A -> result B) (args : list A) : result (list B) :=
  listmap_loop f args [].

(** ** Generators, drained *)

(** [list(g)] for a generator with the given [next]: the items up to
    [StopIteration], or the exception raised on the way; [None] when the fuel
    runs out first. *)
Fixpoint collect {G A} (step : G -> result (option A) * G) (fuel : nat) (g : G)
  : option (result (list A) * G) :=
  match fuel with
  | O => None
  | S fuel' =>
      match step g with
      | (Ok None, g') => Some (Ok [], g')
      | (Ok (Some item), g') =>
          match collect step fuel' g' with
          | Some (Ok l, g'') => Some (Ok (item :: l), g'')
          | Some (Raise e, g'') => Some (Raise e, g'')
          | None => None
          end
      | (Raise e, g') => Some (Raise e, g')
      end
  end.

(** ** zip_iterables *)

(** The generator object: before its first [next], inside the loop with the
    indices of [range(min_len)] still to visit, or finished. *)
Inductive zip_generator (A B : Type) : Type :=
| ZipCreated (iter1 : list A) (iter2 : list B)
| ZipLoop (iter1 : list A) (iter2 : list B) (indices : list Z)
| ZipFinished.
Arguments ZipCreated {A B} iter1 iter2.
Arguments ZipLoop {A B} iter1 iter2 indices.
Arguments ZipFinished {A B}.

Definition zip_iterables {A B} (iter1 : list A) (iter2 : list B)
  : zip_generator A B :=
  ZipCreated iter1 iter2.

(** One turn of [for i in range(min_len): yield (iter1[i], iter2[i])]. *)
Definition zip_turn {A B} (iter1 : list A) (iter2 : list B) (indices : list Z)
  : result (option (A * B)) * zip_generator A B :=
  match indices with
  | [] => (Ok None, ZipFinished)
  | i :: rest =>
      match (let? a := py_getitem iter1 i in
             let? b := py_getitem iter2 i in Ok (a, b)) with
      | Ok p => (Ok (Some p), ZipLoop iter1 iter2 rest)
      | Raise e => (Raise e, ZipFinished)
      end
  end.

Definition zip_next {A B} (g : zip_generator A B)
  : result (option (A * B)) * zip_generator A B :=
  match g with
  | ZipCreated iter1 iter2 =>
      zip_turn iter1 iter2 (py_range (Z.min (len iter1) (len iter2)))
  | ZipLoop iter1 iter2 indices => zip_turn iter1 iter2 indices
  | ZipFinished => (Ok None, ZipFinished)
  end.

(** ** unique *)

Section Unique.
Context {A : Type} `{Countable A}.

(** The generator object: before its first [next], suspended at the [yield]
    of an item that is not in [seen] yet, or finished. *)
Inductive unique_generator : Type :=
| UniqueCreated (iterable : list A)
| UniqueYielded (item : A) (rest : list A) (seen : gset A)
| UniqueFinished.

Definition unique (iterable : list A) : unique_generator :=
  UniqueCreated iterable.

(** The loop, up to its next [yield]. *)
Fixpoint unique_scan (rest : list A) (seen : gset A)
  : result (option A) * unique_generator :=
  match rest with
  | [] => (Ok None, UniqueFinished)
  | item :: rest' =>
      if decide (item ∈ seen) then unique_scan rest' seen
      else (Ok (Some item), UniqueYielded item rest' seen)
  end.

(** [next(g)]: on resuming, [seen.add(item)] runs first. *)
Definition unique_next (g : unique_generator)
  : result (option A) * unique_generator :=
  match g with
  | UniqueCreated iterable => unique_scan iterable ∅
  | UniqueYielded item rest seen => unique_scan rest ({[item]} ∪ seen)
  | UniqueFinished => (Ok None, UniqueFinished)
  end.
End Unique.

(** ** partition *)

(** The loop of [partition] over the items still to visit, with the two
    lists built so far. *)
Fixpoint partition_loop {A} (condition : A -> bool) (iterable : list A)
    (true_part false_part : list A) : list A * list A :=
  match iterable with
  | [] => (true_part, false_part)
  | item :: rest =>
      if condition item
      then partition_loop condition rest (true_part ++ [item]) false_part
      else partition_loop condition rest true_part (false_part ++ [item])
  end.

Definition partition {A} (condition : A -> bool) (iterable : list A)
  : list A * list A :=
  partition_loop condition iterable [] [].

(** ** Vocabulary of the statements *)

(** The rows of a grid object, as [grab] and [swipe] see them. *)
Definition rows (x : StringGrid) : list pystr := splitlines (grid x).

(** The character in column [col] of row [row], both counted from 0. *)
Definition cell_of (rs : list pystr) (col row : Z) : option char :=
  match rs !! Z.to_nat row with
  | Some r => r !! Z.to_nat col
  | None => None
  end.

Definition cell (x : StringGrid) (col row : Z) : option char :=
  cell_of (rows x) col row.

(** Every row is as long as the declared width. *)
Definition rectangular (x : StringGrid) : Prop :=
  Forall (fun r => len r = width x) (rows x).

(** A coordinate inside the declared dimensions. *)
Definition inside (x : StringGrid) (col row : Z) : Prop :=
  0 <= col < width x /\ 0 <= row < height x.

(** [(c1, r1)] comes before [(c2, r2)] in a row-major scan. *)
Definition scanned_before (c1 r1 c2 r2 : Z) : Prop :=
  r1 < r2 \/ (r1 = r2 /\ c1 < c2).

(** The index Python reads for [i] in a sequence of length [n]. *)
Definition wrap (i n : Z) : Z := if i <? 0 then i + n else i.

(** The item occurs in some row of the grid. *)
Definition occurs (item : char) (x : StringGrid) : Prop :=
  exists r, r ∈ rows x /\ item ∈ r.

(** How often a letter occurs in a path. *)
Definition occurrences (letter : char) (path : pystr) : Z :=
  Z.of_nat (count_occ N.eq_dec path letter).

(** Where a path of U, D, L and R letters leads from [(col, row)]. *)
Definition destination (col row : Z) (path : pystr) : Z * Z :=
  (col + occurrences 82%N path - occurrences 76%N path,
   row + occurrences 68%N path - occurrences 85%N path).

Definition udlr (letter : char) : Prop :=
  letter = 85%N \/ letter = 68%N \/ letter = 76%N \/ letter = 82%N.

(** The bounds check of [swipe], on the destination it computes. *)
Definition out_of_bounds (x : StringGrid) (new_x new_y : Z) : bool :=
  (new_x <? 0) || (new_x >=? height x) || (new_y <? 0) || (new_y >=? width x).

(** The four directions of [swipe], the keyword of each and its steps
    [(dx, dy)]: the entry of [directs], as [dx] for left and right and as
    [dy] for up and down. *)
Inductive heading : Type := Left | Right | Up | Down.

Definition keyword (d : heading) : pystr :=
  match d with
  | Left => txt "left"
  | Right => txt "right"
  | Up => txt "up"
  | Down => txt "down"
  end.

Definition step (d : heading) : Z * Z :=
  match d with
  | Left => (-1, 0)
  | Right => (1, 0)
  | Up => (0, -1)
  | Down => (0, 1)
  end.

(** A character that is no line boundary. *)
Definition plain (c : char) : Prop := is_linebreak c = false.

(** The grids of the examples: X in the top right corner, and in the top left
    corner, of two rows of two cells. *)
Definition grid_top_right : pystr := txt ".X" ++ LF :: txt "..".
Definition grid_top_left : pystr := txt "X." ++ LF :: txt "..".

(** An entry of [matches] after [matches[index] = int(item)]. *)
Definition as_int (f : flag) : flag := FInt (int_of_flag f).

(** The text [select] builds: the [str] of each item whose flag, as an
    integer, is at least 1. *)
Fixpoint picked (its : list elem) (flags : list flag) : pystr :=
  match its, flags with
  | item :: its', f :: flags' =>
      (if int_of_flag f >=? 1 then str_of_elem item else []) ++ picked its' flags'
  | _, _ => []
  end.

(** The characters of [s] whose flag, as an integer, is at least 1. *)
Fixpoint masked (s : pystr) (flags : list flag) : pystr :=
  match s, flags with
  | c :: s', f :: flags' =>
      if int_of_flag f >=? 1 then c :: masked s' flags' else masked s' flags'
  | _, _ => []
  end.

(** [bool(f)]: a flag is truthy when it is not zero. *)
Definition truthy (f : flag) : bool := negb (int_of_flag f =? 0).

(** The characters of [s] whose flag is truthy. *)
Fixpoint masked_by_truth (s : pystr) (flags : list flag) : pystr :=
  match s, flags with
  | c :: s', f :: flags' =>
      if truthy f then c :: masked_by_truth s' flags' else masked_by_truth s' flags'
  | _, _ => []
  end.

(** What [select] returns, once the flags are integers, for each kind of [x]. *)
Definition assembled (x : pyseq) (flags : list flag) : result selected :=
  let p := picked (items x) flags in
  match x with
  | SStr _ => Ok (Sequence (SStr p))
  | SList l =>
      let? q := restore l (enumerate (take (length (chars p)) l)) (chars p) in
      Ok (Sequence (SList q))
  | STuple l =>
      let? q := restore_tuple l (enumerate (take (length (chars p)) l)) (chars p) in
      Ok (Sequence (STuple q))
  end.

Definition length_message : pystr := txt "Length of matches not length of x".

(** The longest prefix of [l] whose elements all satisfy [condition]. *)
Fixpoint longest_prefix {A} (condition : A -> bool) (l : list A) : list A :=
  match l with
  | [] => []
  | a :: l' => if condition a then a :: longest_prefix condition l' else []
  end.

(** An entry of [matches] that is an [int] object already. *)
Definition is_int (f : flag) : Prop :=
  match f with
  | FInt _ => True
  | FBool _ => False
  end.

(** The grid objects [StringGrid] builds from the two example texts. *)
Definition top_right : StringGrid :=
  {| grid := grid_top_right; width := 2; height := 2 |}.
Definition top_left : StringGrid :=
  {| grid := grid_top_left; width := 2; height := 2 |}.

(** The items of [rest] that are not in [seen] and not met earlier in
    [rest]: each at its first occurrence. *)
Fixpoint fresh_items {A} `{Countable A} (rest : list A) (seen : gset A) : list A :=
  match rest with
  | [] => []
  | item :: rest' =>
      if decide (item ∈ seen) then fresh_items rest' seen
      else item :: fresh_items rest' ({[item]} ∪ seen)
  end.

(** Three rows of two cells with X at the bottom left, and the grid object
    built from it. *)
Definition grid_tall : pystr := txt ".." ++ LF :: txt ".." ++ LF :: txt "X.".
Definition tall : StringGrid := {| grid := grid_tall; width := 2; height := 3 |}.

(** * Properties *)

(** ** The monad *)

Lemma readonly_ret {S A} (a : A) : readonly (S := S) (ret a).
Proof. intros s. reflexivity. Qed.

Lemma readonly_lift {S A} (r : result A) : readonly (S := S) (lift r).
Proof. intros s. reflexivity. Qed.

Lemma readonly_get {S} : readonly (S := S) get.
Proof. intros s. reflexivity. Qed.

Lemma readonly_bind {S A B} (m : M S A) (k : A -> M S B) :
  readonly m -> (forall a, readonly (k a)) -> readonly (bind m k).
Proof.
  intros Hm Hk s. unfold bind. specialize (Hm s).
  destruct (m s) as [[a|e] s']; simpl in *; subst; [apply Hk | reflexivity].
Qed.

Lemma readonly_run {S A} (m : M S A) (s : S) :
  readonly m -> m s = (fst (m s), s).
Proof. intros H. specialize (H s). destruct (m s); simpl in *; congruence. Qed.

(** ** Indexing *)

Lemma py_index_inside {A} (l : list A) (i : Z) :
  0 <= i < len l -> py_index l i = Ok (Z.to_nat i).
Proof.
  intros H. unfold py_index.
  destruct (Z.ltb_spec i 0); [lia|].
  destruct (Z.ltb_spec i 0); [lia|].
  destruct (Z.leb_spec (len l) i); [lia|]. reflexivity.
Qed.

Lemma py_index_negative {A} (l : list A) (i : Z) :
  - len l <= i < 0 -> py_index l i = Ok (Z.to_nat (i + len l)).
Proof.
  intros H. unfold py_index.
  destruct (Z.ltb_spec i 0); [|lia].
  destruct (Z.ltb_spec (i + len l) 0); [lia|].
  destruct (Z.leb_spec (len l) (i + len l)); [lia|]. reflexivity.
Qed.

Lemma py_index_outside {A} (l : list A) (i : Z) :
  i < - len l \/ len l <= i -> py_index l i = Raise IndexError.
Proof.
  intros H. unfold py_index, len in *.
  destruct (Z.ltb_spec i 0).
  - destruct (Z.ltb_spec (i + Z.of_nat (length l)) 0); [reflexivity|lia].
  - destruct (Z.ltb_spec i 0); [lia|].
    destruct (Z.leb_spec (Z.of_nat (length l)) i); [reflexivity|lia].
Qed.

Lemma py_index_wrap {A} (l : list A) (i : Z) :
  - len l <= i < len l -> py_index l i = Ok (Z.to_nat (wrap i (len l))).
Proof.
  intros H. unfold wrap. destruct (Z.ltb_spec i 0).
  - apply py_index_negative. lia.
  - apply py_index_inside. lia.
Qed.

Lemma py_index_bound {A} (l : list A) (i : Z) (j : nat) :
  py_index l i = Ok j -> (j < length l)%nat.
Proof.
  unfold py_index, len.
  destruct (_ || _) eqn:E; [discriminate|]. intros [= <-].
  apply orb_false_iff in E as [E1 E2].
  apply Z.ltb_ge in E1. apply Z.leb_gt in E2. lia.
Qed.

Lemma py_getitem_wrap {A} (l : list A) (i : Z) :
  - len l <= i < len l ->
  exists a, l !! Z.to_nat (wrap i (len l)) = Some a /\ py_getitem l i = Ok a.
Proof.
  intros H. unfold py_getitem. rewrite py_index_wrap by exact H. simpl.
  destruct (lookup_lt_is_Some_2 l (Z.to_nat (wrap i (len l)))) as [a Ha].
  - unfold wrap, len in *. destruct (Z.ltb_spec i 0); lia.
  - exists a. rewrite Ha. auto.
Qed.

Lemma py_getitem_inside {A} (l : list A) (i : Z) (a : A) :
  0 <= i -> l !! Z.to_nat i = Some a -> py_getitem l i = Ok a.
Proof.
  intros Hi Ha. unfold py_getitem.
  rewrite py_index_inside.
  - simpl. rewrite Ha. reflexivity.
  - apply lookup_lt_Some in Ha. unfold len. lia.
Qed.

Lemma py_getitem_outside {A} (l : list A) (i : Z) :
  i < - len l \/ len l <= i -> py_getitem l i = Raise IndexError.
Proof. intros H. unfold py_getitem. rewrite py_index_outside by exact H. reflexivity. Qed.

Lemma py_getitem_elem {A} (l : list A) (i : Z) (a : A) :
  py_getitem l i = Ok a -> a ∈ l.
Proof.
  unfold py_getitem. destruct (py_index l i) as [j|]; simpl; [|discriminate].
  destruct (l !! j) eqn:E; [|discriminate]. intros [= <-].
  eapply list_elem_of_lookup_2; eauto.
Qed.

(** ** The grid object *)

Lemma init_grid text x : StringGrid_init text = Ok x -> grid x = text.
Proof.
  unfold StringGrid_init. destruct (py_getitem _ 0); simpl; [|discriminate].
  intros [= <-]. reflexivity.
Qed.

Lemma init_height text x : StringGrid_init text = Ok x -> height x = len (rows x).
Proof.
  unfold StringGrid_init, rows. destruct (py_getitem _ 0); simpl; [|discriminate].
  intros [= <-]. reflexivity.
Qed.

Lemma init_width text x :
  StringGrid_init text = Ok x ->
  exists row0, rows x !! 0%nat = Some row0 /\ width x = len row0.
Proof.
  unfold StringGrid_init, rows, py_getitem.
  destruct (py_index (splitlines text) 0) as [j|] eqn:Ej; simpl; [|discriminate].
  assert (j = 0%nat) as ->.
  { unfold py_index in Ej. destruct (_ || _); [discriminate|].
    injection Ej as <-. reflexivity. }
  destruct (splitlines text !! 0%nat) as [r|] eqn:E; [|discriminate].
  intros [= <-]. simpl. eauto.
Qed.

Lemma grab_run x y (g : StringGrid) :
  grab x y g = (let? row := py_getitem (rows g) y in py_getitem row x, g).
Proof. reflexivity. Qed.

Lemma grab_readonly x y : readonly (grab x y).
Proof. intros g. reflexivity. Qed.

(** On a rectangular grid, an index beyond the dimensions raises. *)
Lemma grab_outside_raises (text : pystr) (x : StringGrid) (col row : Z) :
  StringGrid_init text = Ok x ->
  rectangular x ->
  (col < - width x \/ width x <= col \/ row < - height x \/ height x <= row) ->
  grab col row x = (Raise IndexError, x).
Proof.
  intros Hinit Hrect Hout. pose proof (init_height _ _ Hinit) as Hh.
  rewrite grab_run.
  destruct (Z_lt_ge_dec row (- height x)) as [Hlo|Hlo];
    [rewrite py_getitem_outside by lia; reflexivity|].
  destruct (Z_lt_ge_dec row (height x)) as [Hhi|Hhi];
    [|rewrite py_getitem_outside by lia; reflexivity].
  destruct (py_getitem_wrap (rows x) row) as (r & Hr & ->); [lia|]. simpl.
  pose proof (Forall_lookup_1 _ _ _ _ Hrect Hr) as Hlen. simpl in Hlen.
  rewrite py_getitem_outside by lia. reflexivity.
Qed.

(** On a rectangular grid, an index within the dimensions, negative or not,
    reads the cell Python's wrap-around designates. *)
Lemma grab_wrapped_returns (text : pystr) (x : StringGrid) (col row : Z) :
  StringGrid_init text = Ok x ->
  rectangular x ->
  - width x <= col < width x ->
  - height x <= row < height x ->
  exists c,
    cell x (wrap col (width x)) (wrap row (height x)) = Some c
    /\ grab col row x = (Ok c, x).
Proof.
  intros Hinit Hrect Hc Hr. pose proof (init_height _ _ Hinit) as Hh.
  rewrite grab_run.
  destruct (py_getitem_wrap (rows x) row) as (r & Hrow & ->); [lia|]. simpl.
  pose proof (Forall_lookup_1 _ _ _ _ Hrect Hrow) as Hlen. simpl in Hlen.
  destruct (py_getitem_wrap r col) as (c & Hcol & ->); [lia|].
  exists c. split; [|reflexivity].
  unfold cell, cell_of. rewrite Hh, Hrow, <- Hlen. exact Hcol.
Qed.

(** C3 (as amended).  On a rectangular grid, [grab] raises [IndexError] when
    the column is at or beyond the width or below minus the width, or the row
    is at or beyond the height or below minus the height.  A column in
    [-width, width) with a row in [-height, height) is a valid lookup: a
    negative index counts from the end, and the character returned is the one
    at column [col + width] (row [row + height]) when the index is negative. *)
Theorem grab_index_error (text : pystr) (x : StringGrid) (col row : Z) :
  StringGrid_init text = Ok x ->
  rectangular x ->
  ((col < - width x \/ width x <= col \/ row < - height x \/ height x <= row) ->
   grab col row x = (Raise IndexError, x))
  /\
  ((- width x <= col < width x /\ - height x <= row < height x) ->
   exists c,
     cell x (wrap col (width x)) (wrap row (height x)) = Some c
     /\ grab col row x = (Ok c, x)).
Proof.
  intros Hinit Hrect. split.
  - intros Hout. exact (grab_outside_raises text x col row Hinit Hrect Hout).
  - intros [Hc Hr]. exact (grab_wrapped_returns text x col row Hinit Hrect Hc Hr).
Qed.



(** ** find_grid_item *)

Lemma find_in_row_cons item y c cols (g : StringGrid) :
  find_in_row item y (c :: cols) g =
  match grab c y g with
  | (Ok ch, g') =>
      if (ch =? item)%N then (Ok (Some (c, y)), g') else find_in_row item y cols g'
  | (Raise e, g') => (Raise e, g')
  end.
Proof.
  cbn [find_in_row]. unfold bind. destruct (grab c y g) as [[ch|e] g']; [|reflexivity].
  destruct (ch =? item)%N; reflexivity.
Qed.

Lemma find_in_rows_cons item y ys (g : StringGrid) :
  find_in_rows item (y :: ys) g =
  match find_in_row item y (py_range (width g)) g with
  | (Ok (Some p), g') => (Ok (Some p), g')
  | (Ok None, g') => find_in_rows item ys g'
  | (Raise e, g') => (Raise e, g')
  end.
Proof.
  cbn [find_in_rows]. unfold bind, get.
  destruct (find_in_row item y (py_range (width g)) g) as [[[p|]|e] g']; reflexivity.
Qed.

Lemma find_in_row_readonly item y cols : readonly (find_in_row item y cols).
Proof.
  induction cols as [|c cols IH]; intros g; [reflexivity|].
  rewrite find_in_row_cons, grab_run.
  destruct (let? row := py_getitem (rows g) y in py_getitem row c) as [ch|e];
    [|reflexivity].
  destruct (ch =? item)%N; [reflexivity|apply IH].
Qed.

Lemma find_in_rows_readonly item ys : readonly (find_in_rows item ys).
Proof.
  induction ys as [|y ys IH]; intros g; [reflexivity|].
  rewrite find_in_rows_cons.
  rewrite (readonly_run _ g (find_in_row_readonly item y _)).
  destruct (fst _) as [[p|]|e]; [reflexivity|apply IH|reflexivity].
Qed.

Lemma find_grid_item_readonly item : readonly (find_grid_item item).
Proof. intros g. apply (find_in_rows_readonly item _ g). Qed.

(** The inner loop over the columns [a], ..., [a + n - 1] of row [y]. *)
Lemma find_in_row_seq item (y : nat) (g : StringGrid) (r : pystr) (n a : nat) :
  rows g !! y = Some r ->
  (a + n <= length r)%nat ->
  (exists c : nat,
      (a <= c < a + n)%nat
      /\ r !! c = Some item
      /\ (forall c' : nat, (a <= c' < c)%nat -> r !! c' <> Some item)
      /\ find_in_row item (Z.of_nat y) (Z.of_nat <$> seq a n) g
         = (Ok (Some (Z.of_nat c, Z.of_nat y)), g))
  \/ ((forall c' : nat, (a <= c' < a + n)%nat -> r !! c' <> Some item)
      /\ find_in_row item (Z.of_nat y) (Z.of_nat <$> seq a n) g = (Ok None, g)).
Proof.
  intros Hr. revert a. induction n as [|n IH]; intros a Hlen.
  - right. split; [intros c' Hc'; lia | reflexivity].
  - destruct (lookup_lt_is_Some_2 r a) as [ch Hch]; [lia|].
    assert (grab (Z.of_nat a) (Z.of_nat y) g = (Ok ch, g)) as Hgrab.
    { rewrite grab_run.
      rewrite (py_getitem_inside (rows g) (Z.of_nat y) r) by
        (rewrite ?Nat2Z.id; auto with lia).
      simpl. rewrite (py_getitem_inside r (Z.of_nat a) ch) by
        (rewrite ?Nat2Z.id; auto with lia).
      reflexivity. }
    change (Z.of_nat <$> seq a (S n))
      with (Z.of_nat a :: (Z.of_nat <$> seq (S a) n)).
    rewrite find_in_row_cons, Hgrab.
    destruct (N.eqb_spec ch item) as [->|Hne].
    + left. exists a. split; [lia|]. split; [exact Hch|].
      split; [intros c' Hc'; lia | reflexivity].
    + destruct (IH (S a)) as [(c & Hc & Hitem & Hbefore & Hrun)|[Hnone Hrun]];
        [lia| |].
      * left. exists c. split; [lia|]. split; [exact Hitem|].
        split; [|exact Hrun].
        intros c' Hc'. destruct (decide (c' = a)) as [Heq|].
        -- rewrite Heq, Hch. congruence.
        -- apply Hbefore. lia.
      * right. split; [|exact Hrun].
        intros c' Hc'. destruct (decide (c' = a)) as [Heq|].
        -- rewrite Heq, Hch. congruence.
        -- apply Hnone. lia.
Qed.

(** The outer loop over the rows [b], ..., [b + m - 1] of a grid whose rows
    all have the declared width. *)
Lemma find_in_rows_seq item (g : StringGrid) (wn m b : nat) :
  width g = Z.of_nat wn ->
  Forall (fun r => length r = wn) (rows g) ->
  (b + m <= length (rows g))%nat ->
  (exists c r : nat,
      (b <= r < b + m)%nat /\ (c < wn)%nat
      /\ cell g (Z.of_nat c) (Z.of_nat r) = Some item
      /\ (forall c' r' : nat,
             (b <= r')%nat -> (c' < wn)%nat ->
             (r' < r \/ (r' = r /\ c' < c))%nat ->
             cell g (Z.of_nat c') (Z.of_nat r') <> Some item)
      /\ find_in_rows item (Z.of_nat <$> seq b m) g
         = (Ok (Some (Z.of_nat c, Z.of_nat r)), g))
  \/ ((forall c' r' : nat,
          (b <= r' < b + m)%nat -> (c' < wn)%nat ->
          cell g (Z.of_nat c') (Z.of_nat r') <> Some item)
      /\ find_in_rows item (Z.of_nat <$> seq b m) g = (Ok None, g)).
Proof.
  intros Hw Hrect. revert b. induction m as [|m IH]; intros b Hlen.
  - right. split; [intros c' r' Hr'; lia | reflexivity].
  - destruct (lookup_lt_is_Some_2 (rows g) b) as [r Hr]; [lia|].
    pose proof (Forall_lookup_1 _ _ _ _ Hrect Hr) as Hrlen. simpl in Hrlen.
    assert (forall c' : nat, cell g (Z.of_nat c') (Z.of_nat b) = r !! c') as Hcell.
    { intros c'. unfold cell, cell_of. rewrite !Nat2Z.id, Hr. reflexivity. }
    change (Z.of_nat <$> seq b (S m))
      with (Z.of_nat b :: (Z.of_nat <$> seq (S b) m)).
    rewrite find_in_rows_cons. unfold py_range. rewrite Hw, Nat2Z.id.
    destruct (find_in_row_seq item b g r wn 0 Hr)
      as [(c & Hc & Hitem & Hbefore & ->)|[Hnone ->]]; [lia| |].
    + left. exists c, b. split; [lia|]. split; [lia|].
      split; [rewrite Hcell; exact Hitem|]. split; [|reflexivity].
      intros c' r' Hr' Hc' [Hlt|[-> Hlt]]; [lia|].
      rewrite Hcell. apply Hbefore. lia.
    + destruct (IH (S b)) as [(c & r0 & Hr0 & Hc & Hitem & Hbefore & Hrun)|[Hnone' Hrun]];
        [lia| |].
      * left. exists c, r0. split; [lia|]. split; [exact Hc|].
        split; [exact Hitem|]. split; [|exact Hrun].
        intros c' r' Hr' Hc' Hord. destruct (decide (r' = b)) as [Heq|].
        -- rewrite Heq, Hcell. apply Hnone. lia.
        -- apply Hbefore; lia.
      * right. split; [|exact Hrun].
        intros c' r' Hr' Hc'. destruct (decide (r' = b)) as [Heq|].
        -- rewrite Heq, Hcell. apply Hnone. lia.
        -- apply Hnone'; lia.
Qed.

Lemma rectangular_lengths (x : StringGrid) :
  0 <= width x -> rectangular x ->
  Forall (fun r => length r = Z.to_nat (width x)) (rows x).
Proof.
  intros Hw Hrect. eapply Forall_impl; [exact Hrect|].
  intros r Hr. simpl in Hr. unfold len in Hr. lia.
Qed.

Lemma init_width_nonneg text x : StringGrid_init text = Ok x -> 0 <= width x.
Proof. intros H. destruct (init_width _ _ H) as (r & _ & ->). unfold len. lia. Qed.

(** The row-major scan of a rectangular grid. *)
Lemma find_grid_item_scan (text : pystr) (x : StringGrid) (item : char) :
  StringGrid_init text = Ok x ->
  rectangular x ->
  (exists c r,
      find_grid_item item x = (Ok (Some (c, r)), x)
      /\ inside x c r
      /\ cell x c r = Some item
      /\ (forall c' r', inside x c' r' -> scanned_before c' r' c r ->
                        cell x c' r' <> Some item))
  \/ (find_grid_item item x = (Ok None, x)
      /\ forall c r, inside x c r -> cell x c r <> Some item).
Proof.
  intros Hinit Hrect.
  pose proof (init_height _ _ Hinit) as Hh.
  pose proof (init_width_nonneg _ _ Hinit) as Hw.
  pose proof (rectangular_lengths _ Hw Hrect) as Hlens.
  assert (find_grid_item item x
          = find_in_rows item (Z.of_nat <$> seq 0 (length (rows x))) x) as ->.
  { unfold find_grid_item, bind, get, py_range. rewrite Hh. unfold len.
    rewrite Nat2Z.id. reflexivity. }
  destruct (find_in_rows_seq item x (Z.to_nat (width x)) (length (rows x)) 0)
    as [(c & r & Hr & Hc & Hitem & Hbefore & Hrun)|[Hnone Hrun]];
    [lia|exact Hlens|lia| |].
  - left. exists (Z.of_nat c), (Z.of_nat r). split; [exact Hrun|].
    split; [unfold inside, len in *; lia|]. split; [exact Hitem|].
    intros c' r' [Hc' Hr'] Hord.
    rewrite <- (Z2Nat.id c'), <- (Z2Nat.id r') by lia.
    apply Hbefore; [lia|lia|]. unfold scanned_before in Hord. lia.
  - right. split; [exact Hrun|]. intros c r [Hc Hr].
    rewrite <- (Z2Nat.id c), <- (Z2Nat.id r) by lia.
    apply Hnone; unfold len in *; lia.
Qed.

(** C5.  On a (rectangular) grid, [find_grid_item] returns the coordinate of
    the first cell, in a scan of the rows from the top and of each row from
    the left, that holds the item: the cell holds it, no cell scanned before
    does, and every other cell that holds it is scanned later and ignored.
    When no cell holds the item it returns [None].  It never raises and
    leaves the grid as it was. *)
Theorem find_grid_item_first_match (text : pystr) (x : StringGrid) (item : char) :
  StringGrid_init text = Ok x ->
  rectangular x ->
  (exists c r,
      find_grid_item item x = (Ok (Some (c, r)), x)
      /\ inside x c r
      /\ cell x c r = Some item
      /\ (forall c' r', inside x c' r' -> scanned_before c' r' c r ->
                        cell x c' r' <> Some item)
      /\ (forall c' r', inside x c' r' -> cell x c' r' = Some item ->
                        (c', r') = (c, r) \/ scanned_before c r c' r'))
  \/ (find_grid_item item x = (Ok None, x)
      /\ forall c r, inside x c r -> cell x c r <> Some item).
Proof.
  intros Hinit Hrect.
  destruct (find_grid_item_scan text x item Hinit Hrect)
    as [(c & r & Hrun & Hin & Hitem & Hbefore)|Hnone]; [left|right; exact Hnone].
  exists c, r. split; [exact Hrun|]. split; [exact Hin|].
  split; [exact Hitem|]. split; [exact Hbefore|].
  intros c' r' Hin' Hitem'.
  destruct (Z.lt_trichotomy r' r) as [Hlt|[Heq|Hgt]].
  - exfalso. apply (Hbefore c' r' Hin'); [left; exact Hlt|exact Hitem'].
  - destruct (Z.lt_trichotomy c' c) as [Hlt|[Heq'|Hgt]].
    + exfalso. apply (Hbefore c' r' Hin'); [right; split; assumption|exact Hitem'].
    + left. congruence.
    + right. right. split; [congruence|lia].
  - right. left. lia.
Qed.



(** ** look *)

Lemma find_in_row_found item y cols (g g' : StringGrid) p :
  find_in_row item y cols g = (Ok (Some p), g') -> occurs item g.
Proof.
  induction cols as [|c cols IH]; [discriminate|].
  rewrite find_in_row_cons, grab_run.
  destruct (py_getitem (rows g) y) as [r|] eqn:Er; simpl; [|discriminate].
  destruct (py_getitem r c) as [ch|] eqn:Ec; simpl; [|discriminate].
  destruct (N.eqb_spec ch item) as [->|]; [|exact IH].
  intros _. exists r. split; eapply py_getitem_elem; eauto.
Qed.

Lemma find_in_rows_found item ys (g g' : StringGrid) p :
  find_in_rows item ys g = (Ok (Some p), g') -> occurs item g.
Proof.
  induction ys as [|y ys IH]; [discriminate|].
  rewrite find_in_rows_cons.
  rewrite (readonly_run _ g (find_in_row_readonly item y _)).
  destruct (fst _) as [[q|]|e] eqn:E; [|exact IH|discriminate].
  intros _. eapply (find_in_row_found item y _ g g q).
  rewrite (readonly_run _ g (find_in_row_readonly item y _)), E. reflexivity.
Qed.

Lemma find_grid_item_found item (g g' : StringGrid) p :
  find_grid_item item g = (Ok (Some p), g') -> occurs item g.
Proof. apply find_in_rows_found. Qed.

Lemma cell_occurs (x : StringGrid) c r item : cell x c r = Some item -> occurs item x.
Proof.
  unfold cell, cell_of. destruct (rows x !! Z.to_nat r) as [row|] eqn:E; [|discriminate].
  intros H. exists row. split; eapply list_elem_of_lookup_2; eauto.
Qed.

Lemma look_located item path (x : StringGrid) p :
  find_grid_item item x = (Ok (Some p), x) ->
  look item path x =
  match walk p path with
  | Ok ch =>
      if (fst ch <? 0) || (fst ch >? width x)
         || (snd ch <? 0) || (snd ch >? height x)
      then (Ok OOB, x)
      else match grab (fst ch) (snd ch) x with
           | (Ok c, _) => (Ok [c], x)
           | (Raise e, _) => (Raise e, x)
           end
  | Raise e => (Raise e, x)
  end.
Proof.
  intros Hfind. unfold look, bind at 1. rewrite Hfind.
  unfold bind, lift, get, coordinate.
  destruct (walk p path) as [ch|e]; [|reflexivity].
  destruct (_ || _); [reflexivity|].
  rewrite grab_run. destruct (let? row := _ in _); reflexivity.
Qed.

Lemma walk_destination (path : pystr) :
  Forall udlr path ->
  forall c r, walk (c, r) path = Ok (destination c r path).
Proof.
  unfold destination, occurrences.
  induction 1 as [|letter path Hl _ IH]; intros c r.
  - simpl. f_equal. f_equal; lia.
  - cbn [walk fst snd]. destruct Hl as [-> | [-> | [-> | ->]]]; simpl N.eqb; cbv iota;
      rewrite IH; simpl count_occ; f_equal; f_equal; lia.
Qed.

(** C10.  When the target occurs nowhere in the grid, [look] raises, and the
    exception is fixed before the path is read: it is the same for every
    path, valid or not.  No value is returned, neither the sentinel nor a
    character.  On a rectangular grid the exception is the [TypeError] of
    [list(None)]. *)
Theorem look_absent_raises (text : pystr) (x : StringGrid) (item : char) :
  StringGrid_init text = Ok x ->
  ~ occurs item x ->
  exists e,
    (forall path, look item path x = (Raise e, x))
    /\ (rectangular x -> e = TypeError).
Proof.
  intros Hinit Habsent.
  pose proof (readonly_run _ x (find_grid_item_readonly item)) as Hrun.
  destruct (fst (find_grid_item item x)) as [[p|]|e] eqn:E.
  - exfalso. apply Habsent. eapply find_grid_item_found. exact Hrun.
  - exists TypeError. split; [|reflexivity].
    intros path. unfold look, bind at 1. rewrite Hrun. reflexivity.
  - exists e. split.
    + intros path. unfold look, bind at 1. rewrite Hrun. reflexivity.
    + intros Hrect.
      destruct (find_grid_item_scan text x item Hinit Hrect)
        as [(c & r & Hf & _)|[Hf _]]; rewrite Hf in Hrun; discriminate.
Qed.

(** What [look] does away from the rim.  With the target located at [(c, r)]
    on a rectangular grid and a path of U, D, L and R letters, only the final
    coordinate is checked, however far the positions in between stray.  When
    its column is outside [0, width] or its row outside [0, height], [look]
    returns "OOB"; when it is a cell of the grid (column below the width, row
    below the height) [look] returns the character of that cell. *)
Lemma look_final_coordinate (text : pystr) (x : StringGrid) (item : char)
    (path : pystr) (c r : Z) :
  StringGrid_init text = Ok x ->
  rectangular x ->
  find_grid_item item x = (Ok (Some (c, r)), x) ->
  Forall udlr path ->
  let fc := fst (destination c r path) in
  let fr := snd (destination c r path) in
  ((fc < 0 \/ fc > width x \/ fr < 0 \/ fr > height x) ->
   look item path x = (Ok OOB, x))
  /\
  (inside x fc fr ->
   exists ch, cell x fc fr = Some ch /\ look item path x = (Ok [ch], x)).
Proof.
  intros Hinit Hrect Hfind Hpath fc fr.
  rewrite (look_located _ _ _ _ Hfind), (walk_destination _ Hpath).
  fold fc fr. split.
  - intros Hout.
    assert ((fc <? 0) || (fc >? width x) || (fr <? 0) || (fr >? height x) = true)
      as ->; [|reflexivity].
    rewrite !orb_true_iff, !Z.ltb_lt, !Z.gtb_gt. tauto.
  - intros [Hc Hr].
    assert ((fc <? 0) || (fc >? width x) || (fr <? 0) || (fr >? height x) = false)
      as ->.
    { rewrite !orb_false_iff, !Z.ltb_ge. repeat split; try lia;
        apply Z.gtb_ltb, Z.ltb_ge; lia. }
    destruct (grab_wrapped_returns text x fc fr Hinit Hrect)
      as (ch & Hcell & ->); [lia|lia|].
    exists ch. split; [|reflexivity].
    unfold wrap in Hcell.
    destruct (Z.ltb_spec fc 0); [lia|]. destruct (Z.ltb_spec fr 0); [lia|].
    exact Hcell.
Qed.
(** On the rim the inclusive check lets through, the access fails.  With the
    target located on a rectangular grid and a path of U, D, L and R letters,
    a final coordinate that passes the check of [look] with its column equal
    to the width or its row equal to the height makes [look] raise
    [IndexError]: [grab] has no such cell to read. *)
Lemma look_rim_raises (text : pystr) (x : StringGrid) (item : char)
    (path : pystr) (c r : Z) :
  StringGrid_init text = Ok x ->
  rectangular x ->
  find_grid_item item x = (Ok (Some (c, r)), x) ->
  Forall udlr path ->
  let fc := fst (destination c r path) in
  let fr := snd (destination c r path) in
  0 <= fc <= width x ->
  0 <= fr <= height x ->
  fc = width x \/ fr = height x ->
  look item path x = (Raise IndexError, x).
Proof.
  intros Hinit Hrect Hfind Hpath fc fr Hc Hr Hrim.
  rewrite (look_located _ _ _ _ Hfind), (walk_destination _ Hpath).
  fold fc fr.
  assert ((fc <? 0) || (fc >? width x) || (fr <? 0) || (fr >? height x) = false)
    as ->.
  { rewrite !orb_false_iff, !Z.ltb_ge. repeat split; try lia;
      apply Z.gtb_ltb, Z.ltb_ge; lia. }
  rewrite (grab_outside_raises text x fc fr Hinit Hrect) by lia. reflexivity.
Qed.

(** ** bounds, and reading it back *)

Lemma to_string_txt (s : string) : to_string (txt s) = Some s.
Proof.
  unfold txt. induction s as [|a s IH]; [reflexivity|].
  cbn [list_ascii_of_string map to_string].
  destruct (N.ltb_spec (N_of_ascii a) 256) as [_|Hge].
  - rewrite IH, ascii_N_embedding. reflexivity.
  - pose proof (N_ascii_bounded a). lia.
Qed.

Lemma to_int_proper (z : Z) :
  Z.to_int z <> Decimal.Pos Decimal.Nil /\ Z.to_int z <> Decimal.Neg Decimal.Nil.
Proof.
  destruct z as [|p|p]; simpl; split; try discriminate;
    intros [= H]; exact (DecimalPos.Unsigned.to_uint_nonnil p H).
Qed.

Lemma int_of_text_str_of_int (z : Z) : int_of_text (str_of_int z) = Ok z.
Proof.
  unfold int_of_text, str_of_int. rewrite to_string_txt.
  destruct (to_int_proper z) as [Hp Hn].
  rewrite (NilZero.isi _ Hp Hn), DecimalZ.of_to. reflexivity.
Qed.

(** The text of an [int] holds digits and a minus sign, so no "x". *)
Lemma digits_no_x (d : Decimal.uint) :
  Forall (fun c => c <> 120%N) (txt (NilEmpty.string_of_uint d)).
Proof.
  induction d; cbn [NilEmpty.string_of_uint]; try (constructor; [discriminate|assumption]).
  constructor.
Qed.

Lemma str_of_int_no_x (z : Z) : Forall (fun c => c <> 120%N) (str_of_int z).
Proof.
  unfold str_of_int.
  assert (forall d, Forall (fun c => c <> 120%N) (txt (NilZero.string_of_uint d))) as Hu.
  { intros d. destruct d; try apply digits_no_x.
    constructor; [discriminate|constructor]. }
  destruct (Z.to_int z) as [d|d]; cbn [NilZero.string_of_int]; [apply Hu|].
  constructor; [discriminate|apply Hu].
Qed.

Lemma py_split_whole (sep : char) (s : pystr) :
  Forall (fun c => c <> sep) s -> py_split sep s = [s].
Proof.
  induction 1 as [|c s Hc _ IH]; [reflexivity|].
  cbn [py_split]. destruct (N.eqb_spec c sep); [contradiction|].
  rewrite IH. reflexivity.
Qed.

Lemma py_split_first (sep : char) (a rest : pystr) :
  Forall (fun c => c <> sep) a ->
  py_split sep (a ++ sep :: rest) = a :: py_split sep rest.
Proof.
  induction 1 as [|c s Hc _ IH].
  - cbn [app py_split]. rewrite N.eqb_refl. reflexivity.
  - cbn [app py_split]. destruct (N.eqb_spec c sep); [contradiction|].
    rewrite IH. reflexivity.
Qed.

Lemma bounds_read_back (w h : Z) :
  unpack_ints (py_split 120%N (str_of_int w ++ txt "x" ++ str_of_int h)) = Ok (w, h).
Proof.
  change (txt "x" ++ str_of_int h) with (120%N :: str_of_int h).
  rewrite (py_split_first _ _ _ (str_of_int_no_x w)).
  rewrite (py_split_whole _ _ (str_of_int_no_x h)).
  unfold unpack_ints. rewrite !int_of_text_str_of_int. reflexivity.
Qed.

(** ** swipe *)

Lemma swipe_run character direction blankness (x : StringGrid) :
  swipe character direction blankness x =
  (let? item := fst (find_grid_item character x) in
   let? d := steps (lower direction) in
   let? it := coordinate item in
   if out_of_bounds x (fst it + snd d) (snd it + fst d) then Ok OOB
   else
     let? rx1 := set_cell (rows x) (fst it + snd d) (snd it + fst d) character in
     let? rx2 := set_cell rx1 (fst it) (snd it) blankness in
     Ok (py_join [LF] rx2),
   x).
Proof.
  unfold swipe. unfold bind at 1. unfold get at 1. unfold bind at 1.
  rewrite (readonly_run _ x (find_grid_item_readonly character)).
  destruct (fst (find_grid_item character x)) as [item|e]; [|reflexivity].
  unfold bind at 1. unfold bounds at 1. unfold bind at 1, get at 1, ret at 1.
  unfold bind at 1, lift at 1. rewrite bounds_read_back.
  unfold bind at 1, lift at 1. cbn [rbind].
  destruct (steps (lower direction)) as [[dx dy]|e]; [|reflexivity].
  unfold bind at 1, lift at 1. cbn [rbind fst snd].
  destruct (coordinate item) as [[c r]|e]; [|reflexivity].
  cbn [rbind fst snd]. unfold out_of_bounds.
  destruct (_ || _); [reflexivity|].
  unfold bind at 1, lift at 1. fold (rows x).
  destruct (set_cell (rows x) (c + dy) (r + dx) character) as [rx1|e]; [|reflexivity].
  unfold bind at 1, lift at 1. cbn [rbind].
  destruct (set_cell rx1 c r blankness) as [rx2|e]; reflexivity.
Qed.

Lemma steps_keyword (d : heading) : steps (keyword d) = Ok (step d).
Proof. destruct d; reflexivity. Qed.

Lemma swipe_located character direction blankness (x : StringGrid) d c r :
  find_grid_item character x = (Ok (Some (c, r)), x) ->
  lower direction = keyword d ->
  swipe character direction blankness x =
  (if out_of_bounds x (c + snd (step d)) (r + fst (step d)) then Ok OOB
   else
     let? rx1 := set_cell (rows x) (c + snd (step d)) (r + fst (step d)) character in
     let? rx2 := set_cell rx1 c r blankness in
     Ok (py_join [LF] rx2),
   x).
Proof.
  intros Hfind Hd. rewrite swipe_run, Hfind, Hd, steps_keyword. reflexivity.
Qed.

(** The bounds check as [swipe] performs it.  With the target located at
    [(c, r)] and a direction that is, in any letter case, left, right, up or
    down, [swipe] computes [new_x = c + dy] and [new_y = r + dx], the step
    added to the other coordinate than the one the direction names, and
    checks [new_x] against the height and [new_y] against the width.  When
    either lies outside [0, dimension), [swipe] returns the text "OOB" as its
    value, without raising, and the grid object is left as it was. *)
Lemma swipe_out_of_bounds (x : StringGrid) (character : char)
    (direction : pystr) (blankness : char) (d : heading) (c r : Z) :
  find_grid_item character x = (Ok (Some (c, r)), x) ->
  lower direction = keyword d ->
  let new_x := c + snd (step d) in
  let new_y := r + fst (step d) in
  (new_x < 0 \/ new_x >= height x \/ new_y < 0 \/ new_y >= width x) ->
  swipe character direction blankness x = (Ok OOB, x).
Proof.
  intros Hfind Hd new_x new_y Hout.
  rewrite (swipe_located _ _ _ _ d c r Hfind Hd). fold new_x new_y.
  assert (out_of_bounds x new_x new_y = true) as ->; [|reflexivity].
  unfold out_of_bounds. rewrite !orb_true_iff, !Z.ltb_lt, !Z.geb_le. lia.
Qed.
(** C2, at an input where it fails.  X is in the top right corner of two rows
    of two cells, at column 1 of row 0.  Moving it up leaves the grid: the
    cell one step up is in row -1.  [swipe] adds the step to the column,
    checks 0 against the height, and does not return "OOB": it returns the
    text with X written into the top left corner as well, and the grid object
    as it was. *)
Theorem swipe_up_from_top_row_not_refused :
  exists x,
    StringGrid_init grid_top_right = Ok x
    /\ rectangular x
    /\ find_grid_item 88%N x = (Ok (Some (1, 0)), x)
    /\ (1 + fst (step Up), 0 + snd (step Up)) = (1, -1)
    /\ ~ inside x 1 (-1)
    /\ swipe 88%N (txt "up") 46%N x = (Ok (txt "XX" ++ LF :: txt ".."), x)
    /\ txt "XX" ++ LF :: txt ".." <> OOB.
Proof.
  exists top_right. split; [reflexivity|]. split; [repeat constructor|].
  split; [reflexivity|]. split; [reflexivity|].
  split; [unfold inside; lia|]. split; [reflexivity|discriminate].
Qed.

(** C1, at the input where it fails.  X is in the top right corner of two
    rows of two cells, at column 1 of row 0.  Moving it right passes the
    bounds check of [swipe], and the text returned has X in the bottom right
    corner and X still in the top right corner: the cell it came from was not
    filled, and there are now two X. *)
Theorem swipe_right_leaves_original :
  exists x,
    StringGrid_init grid_top_right = Ok x
    /\ rectangular x
    /\ find_grid_item 88%N x = (Ok (Some (1, 0)), x)
    /\ out_of_bounds x (1 + snd (step Right)) (0 + fst (step Right)) = false
    /\ swipe 88%N (txt "right") 46%N x = (Ok (txt ".X" ++ LF :: txt ".X"), x).
Proof.
  eexists. split; [reflexivity|]. split; [repeat constructor|].
  split; [reflexivity|]. split; reflexivity.
Qed.

(** ** Rows, joined and split again *)

Lemma splitlines_plain_upto (n : nat) (s : pystr) :
  (length s <= n)%nat -> Forall (Forall plain) (splitlines s).
Proof.
  revert s. induction n as [|n IH]; intros s Hs.
  - destruct s; [constructor | simpl in Hs; lia].
  - destruct s as [|c s']; [constructor|].
    cbn [splitlines]. destruct (is_linebreak c) eqn:Ec.
    + constructor; [constructor|]. destruct s' as [|c' s'']; [constructor|].
      destruct (_ && _); apply IH; simpl in *; lia.
    + assert (Forall (Forall plain) (splitlines s')) as Hs'
          by (apply IH; simpl in *; lia).
      destruct (splitlines s') as [|l ls].
      * repeat constructor. exact Ec.
      * inversion Hs'; subst. constructor; [constructor; assumption|assumption].
Qed.

Lemma splitlines_plain (s : pystr) : Forall (Forall plain) (splitlines s).
Proof. apply (splitlines_plain_upto (length s)). lia. Qed.

Lemma splitlines_then_LF (r rest : pystr) :
  Forall plain r -> splitlines (r ++ LF :: rest) = r :: splitlines rest.
Proof.
  induction 1 as [|c r Hc _ IH].
  - cbn [app splitlines]. change (is_linebreak LF) with true. cbv iota.
    destruct rest; reflexivity.
  - cbn [app splitlines]. rewrite Hc, IH. reflexivity.
Qed.

Lemma splitlines_one_line (r : pystr) :
  r <> [] -> Forall plain r -> splitlines r = [r].
Proof.
  intros Hne Hr. induction Hr as [|c r Hc Hr IH]; [contradiction|].
  cbn [splitlines]. rewrite Hc. destruct r as [|c' r']; [reflexivity|].
  rewrite IH by discriminate. reflexivity.
Qed.

Lemma splitlines_join (rs : list pystr) :
  Forall (fun r => r <> [] /\ Forall plain r) rs ->
  splitlines (py_join [LF] rs) = rs.
Proof.
  induction 1 as [|r rs [Hne Hr] Hrs IH]; [reflexivity|].
  destruct rs as [|r2 rs].
  - apply splitlines_one_line; assumption.
  - change (py_join [LF] (r :: r2 :: rs)) with (r ++ LF :: py_join [LF] (r2 :: rs)).
    rewrite (splitlines_then_LF _ _ Hr), IH. reflexivity.
Qed.

Lemma py_setitem_index {A} (l : list A) (i : Z) (v : A) (j : nat) :
  py_index l i = Ok j -> py_setitem l i v = Ok (<[j := v]> l).
Proof. intros H. unfold py_setitem. rewrite H. reflexivity. Qed.

(** [rx[i][j] = v] changes neither the number of rows nor their lengths, and
    keeps the rows free of line boundaries when [v] is none. *)
Lemma set_cell_shape (rs rs' : list pystr) (i j : Z) (v : char) (w : nat) :
  set_cell rs i j v = Ok rs' ->
  plain v ->
  Forall (fun r => length r = w /\ Forall plain r) rs ->
  length rs' = length rs
  /\ Forall (fun r => length r = w /\ Forall plain r) rs'.
Proof.
  unfold set_cell, py_getitem. intros Hset Hv Hrs.
  destruct (py_index rs i) as [ni|] eqn:Ei; [|discriminate].
  cbn [rbind] in Hset.
  destruct (rs !! ni) as [row|] eqn:Erow; [|discriminate].
  cbn [rbind] in Hset. unfold py_setitem at 1 in Hset.
  destruct (py_index row j) as [nj|]; [|discriminate].
  cbn [rbind] in Hset. rewrite (py_setitem_index _ _ _ _ Ei) in Hset.
  injection Hset as <-.
  destruct (Forall_lookup_1 _ _ _ _ Hrs Erow) as [Hlen Hplain].
  split; [apply length_insert|].
  apply Forall_insert; [exact Hrs|].
  split; [rewrite length_insert; exact Hlen|].
  apply Forall_insert; assumption.
Qed.

Lemma py_index_nonneg {A} (l : list A) (i : Z) (n : nat) :
  0 <= i -> py_index l i = Ok n -> n = Z.to_nat i /\ (n < length l)%nat.
Proof.
  intros Hi H. pose proof (py_index_bound _ _ _ H) as Hn.
  unfold py_index in H. destruct (Z.ltb_spec i 0); [lia|].
  destruct (_ || _); [discriminate|]. injection H as <-. auto.
Qed.

(** What [rx[i][j] = v] writes, cell by cell. *)
Lemma set_cell_cell_of (rs rs' : list pystr) (i j : Z) (v : char) (c r : Z) :
  0 <= i -> 0 <= j -> 0 <= c -> 0 <= r ->
  set_cell rs i j v = Ok rs' ->
  cell_of rs' c r = if decide (r = i /\ c = j) then Some v else cell_of rs c r.
Proof.
  intros Hi Hj Hc Hr. unfold set_cell, py_getitem. intros Hset.
  destruct (py_index rs i) as [ni|] eqn:Ei; [|discriminate].
  cbn [rbind] in Hset.
  destruct (rs !! ni) as [row|] eqn:Erow; [|discriminate].
  cbn [rbind] in Hset. unfold py_setitem at 1 in Hset.
  destruct (py_index row j) as [nj|] eqn:Ej; [|discriminate].
  cbn [rbind] in Hset. rewrite (py_setitem_index _ _ _ _ Ei) in Hset.
  injection Hset as <-.
  destruct (py_index_nonneg _ _ _ Hi Ei) as [-> Hni].
  destruct (py_index_nonneg _ _ _ Hj Ej) as [-> Hnj].
  unfold cell_of. destruct (decide (r = i)) as [->|Hri].
  - rewrite list_lookup_insert_eq by exact Hni. rewrite Erow.
    destruct (decide (c = j)) as [->|Hcj].
    + rewrite list_lookup_insert_eq by exact Hnj.
      destruct (decide (i = i /\ j = j)) as [_|[]]; auto.
    + rewrite list_lookup_insert_ne by lia.
      destruct (decide (i = i /\ c = j)) as [[_ ?]|_]; [contradiction|reflexivity].
  - rewrite list_lookup_insert_ne by lia.
    destruct (decide (r = i /\ c = j)) as [[? _]|_]; [contradiction|reflexivity].
Qed.

Lemma steps_one_axis (direction : pystr) (dx dy : Z) :
  steps direction = Ok (dx, dy) -> dx = 0 \/ dy = 0.
Proof.
  unfold steps. destruct (_ || _), (directs direction); cbn [rbind];
    intros [= <- <-]; auto.
Qed.

(** What [swipe] writes when it returns a grid.  With the target located at
    [(c, r)], column [c] of row [r], the rows joined into the text are those
    of the grid but for two cells: row [c + dy], column [r + dx] holds the
    character, and then row [c], column [r] holds the fill character. *)
Lemma swipe_written_cells (text : pystr) (x x' : StringGrid) (character : char)
    (direction : pystr) (blankness : char) (c r : Z) (t : pystr) :
  StringGrid_init text = Ok x ->
  rectangular x ->
  find_grid_item character x = (Ok (Some (c, r)), x) ->
  swipe character direction blankness x = (Ok t, x') ->
  t <> OOB ->
  exists rx dx dy,
    steps (lower direction) = Ok (dx, dy)
    /\ t = py_join [LF] rx
    /\ forall c' r', 0 <= c' -> 0 <= r' ->
         cell_of rx c' r' =
         if decide (r' = c /\ c' = r) then Some blankness
         else if decide (r' = c + dy /\ c' = r + dx) then Some character
         else cell x c' r'.
Proof.
  intros Hinit Hrect Hfind Hswipe Hnot.
  destruct (find_grid_item_scan text x character Hinit Hrect)
    as [(c0 & r0 & Hf & [Hc Hr] & _)|[Hf _]];
    rewrite Hf in Hfind; [|discriminate].
  injection Hfind as -> ->.
  rewrite swipe_run, Hf in Hswipe. cbn [fst rbind] in Hswipe.
  destruct (steps (lower direction)) as [[dx dy]|e]; [|discriminate].
  cbn [rbind coordinate fst snd] in Hswipe.
  destruct (out_of_bounds x (c + dy) (r + dx)) eqn:Eout;
    [injection Hswipe as <- _; contradiction|].
  unfold out_of_bounds in Eout. rewrite !orb_false_iff, !Z.ltb_ge in Eout.
  destruct Eout as [[[Hx _] Hy] _].
  destruct (set_cell (rows x) (c + dy) (r + dx) character) as [rx1|] eqn:E1;
    [|discriminate].
  cbn [rbind] in Hswipe.
  destruct (set_cell rx1 c r blankness) as [rx2|] eqn:E2; [|discriminate].
  injection Hswipe as <- _.
  exists rx2, dx, dy. split; [reflexivity|]. split; [reflexivity|].
  intros c' r' Hc' Hr'.
  rewrite (set_cell_cell_of _ _ _ _ _ c' r' (proj1 Hc) (proj1 Hr) Hc' Hr' E2).
  destruct (decide (r' = c /\ c' = r)); [reflexivity|].
  apply (set_cell_cell_of _ _ _ _ _ c' r' Hx Hy Hc' Hr' E1).
Qed.

(** The defect behind C1, in general.  When the target is not on the
    diagonal (its column differs from its row) and [swipe] returns a grid,
    the cell the target was in still holds the target: it is never filled. *)
Lemma swipe_off_diagonal_keeps_original (text : pystr) (x x' : StringGrid)
    (character : char) (direction : pystr) (blankness : char) (c r : Z)
    (t : pystr) :
  StringGrid_init text = Ok x ->
  rectangular x ->
  find_grid_item character x = (Ok (Some (c, r)), x) ->
  c <> r ->
  swipe character direction blankness x = (Ok t, x') ->
  t <> OOB ->
  exists rx, t = py_join [LF] rx /\ cell_of rx c r = Some character.
Proof.
  intros Hinit Hrect Hfind Hne Hswipe Hnot.
  destruct (find_grid_item_scan text x character Hinit Hrect)
    as [(c0 & r0 & Hf & [Hc Hr] & Hcell & _)|[Hf _]];
    rewrite Hf in Hfind; [|discriminate].
  injection Hfind as -> ->.
  destruct (swipe_written_cells _ _ _ _ _ _ c r t Hinit Hrect Hf Hswipe Hnot)
    as (rx & dx & dy & Hsteps & -> & Hcells).
  exists rx. split; [reflexivity|].
  rewrite (Hcells c r (proj1 Hc) (proj1 Hr)).
  destruct (decide (r = c /\ c = r)) as [[? _]|_]; [congruence|].
  destruct (decide (r = c + dy /\ c = r + dx)) as [[? ?]|_]; [|exact Hcell].
  destruct (steps_one_axis _ _ _ Hsteps); lia.
Qed.

(** C6 (as amended).  On a rectangular grid, and with a fill character that
    is no line boundary, whenever [swipe] returns a text other than "OOB", a
    grid built from that text has the width and the height of the original. *)
Theorem swipe_keeps_dimensions (text : pystr) (x x' : StringGrid)
    (character : char) (direction : pystr) (blankness : char) (t : pystr) :
  StringGrid_init text = Ok x ->
  rectangular x ->
  plain blankness ->
  swipe character direction blankness x = (Ok t, x') ->
  t <> OOB ->
  exists x2,
    StringGrid_init t = Ok x2 /\ width x2 = width x /\ height x2 = height x.
Proof.
  intros Hinit Hrect Hblank Hswipe Hnot.
  pose proof (init_height _ _ Hinit) as Hh.
  pose proof (init_width_nonneg _ _ Hinit) as Hw.
  rewrite swipe_run in Hswipe.
  pose proof (readonly_run _ x (find_grid_item_readonly character)) as Hfind.
  destruct (fst (find_grid_item character x)) as [item|e]; [|discriminate].
  cbn [rbind] in Hswipe.
  destruct (steps (lower direction)) as [[dx dy]|e]; [|discriminate].
  cbn [rbind] in Hswipe.
  destruct item as [[c r]|]; [|discriminate].
  cbn [rbind coordinate fst snd] in Hswipe.
  destruct (out_of_bounds x (c + dy) (r + dx));
    [injection Hswipe as <- _; contradiction|].
  destruct (find_grid_item_scan text x character Hinit Hrect)
    as [(c0 & r0 & Hf & [Hc Hr] & Hcell & _)|[Hf _]];
    rewrite Hf in Hfind; [|discriminate].
  injection Hfind as -> ->.
  assert (plain character) as Hchar.
  { destruct (cell_occurs _ _ _ _ Hcell) as (row & Hrow & Hin).
    pose proof (splitlines_plain (grid x)) as Hall.
    rewrite Forall_forall in Hall. specialize (Hall row Hrow).
    rewrite Forall_forall in Hall. apply Hall. exact Hin. }
  assert (Forall (fun r => length r = Z.to_nat (width x) /\ Forall plain r) (rows x))
    as Hshape.
  { apply Forall_and. split; [apply rectangular_lengths; assumption|].
    apply splitlines_plain. }
  destruct (set_cell (rows x) (c + dy) (r + dx) character) as [rx1|] eqn:E1;
    [|discriminate].
  cbn [rbind] in Hswipe.
  destruct (set_cell rx1 c r blankness) as [rx2|] eqn:E2; [|discriminate].
  injection Hswipe as <- _.
  destruct (set_cell_shape _ _ _ _ _ _ E1 Hchar Hshape) as [Hn1 Hshape1].
  destruct (set_cell_shape _ _ _ _ _ _ E2 Hblank Hshape1) as [Hn2 Hshape2].
  assert (splitlines (py_join [LF] rx2) = rx2) as Hsplit.
  { apply splitlines_join. eapply Forall_impl; [exact Hshape2|].
    intros row [Hlen Hplain]. split; [|exact Hplain].
    intros ->. simpl in Hlen. lia. }
  destruct (lookup_lt_is_Some_2 rx2 0) as [row0 Hrow0].
  { rewrite Hn2, Hn1. unfold len in Hh. lia. }
  destruct (Forall_lookup_1 _ _ _ _ Hshape2 Hrow0) as [Hlen0 _].
  exists {| grid := py_join [LF] rx2; width := len row0; height := len rx2 |}.
  split; [|split].
  - unfold StringGrid_init. rewrite Hsplit.
    rewrite (py_getitem_inside rx2 0 row0) by (simpl; auto with lia).
    reflexivity.
  - cbn [width]. unfold len. lia.
  - cbn [height]. unfold len in *. lia.
Qed.

(** ** select *)

Lemma to_ints_run (suf pre : list flag) :
  to_ints (seq (length pre) (length suf)) (pre ++ suf)
  = (Ok tt, pre ++ (as_int <$> suf)).
Proof.
  revert pre. induction suf as [|f suf IH]; intros pre; [reflexivity|].
  cbn [length seq to_ints]. unfold bind at 1, get at 1.
  rewrite list_lookup_middle by reflexivity.
  unfold bind at 1, put at 1.
  assert (<[length pre := FInt (int_of_flag f)]> (pre ++ f :: suf)
          = (pre ++ [as_int f]) ++ suf) as ->.
  { rewrite <- (Nat.add_0_r (length pre)), insert_app_r, <- app_assoc.
    reflexivity. }
  specialize (IH (pre ++ [as_int f])).
  rewrite length_app, Nat.add_1_r in IH. rewrite IH, <- app_assoc. reflexivity.
Qed.

Lemma to_ints_all (matches : list flag) :
  to_ints (seq 0 (length matches)) matches = (Ok tt, as_int <$> matches).
Proof. apply (to_ints_run matches []). Qed.

Lemma pick_run (its : list elem) (a : nat) (matches : list flag) (p : pystr) :
  (a + length its <= length matches)%nat ->
  pick (combine (seq a (length its)) its) p matches
  = (Ok (p ++ picked its (drop a matches)), matches).
Proof.
  revert a p. induction its as [|item its IH]; intros a p Hlen.
  - cbn [length seq combine pick picked]. rewrite app_nil_r. reflexivity.
  - destruct (lookup_lt_is_Some_2 matches a) as [f Hf]; [simpl in Hlen; lia|].
    cbn [length seq combine pick]. unfold bind at 1, get at 1.
    unfold bind at 1, lift at 1.
    rewrite (py_getitem_inside matches (Z.of_nat a) f)
      by (rewrite ?Nat2Z.id; auto with lia).
    rewrite (drop_S _ _ _ Hf). cbn [picked].
    destruct (int_of_flag f >=? 1).
    + rewrite IH by (simpl in Hlen; lia). rewrite <- app_assoc. reflexivity.
    + rewrite IH by (simpl in Hlen; lia). reflexivity.
Qed.

Lemma select_matched (x : pyseq) (matches : list flag) :
  length matches = length (items x) ->
  select x matches = (assembled x (as_int <$> matches), as_int <$> matches).
Proof.
  intros Hlen. unfold select. unfold bind at 1, get at 1.
  unfold len. rewrite Hlen, Z.eqb_refl, <- Hlen.
  unfold bind at 1. rewrite to_ints_all.
  unfold bind at 1, enumerate.
  rewrite (pick_run (items x) 0 (as_int <$> matches) [])
    by (rewrite length_fmap; lia).
  cbn [drop app]. unfold assembled.
  destruct x as [s|l|l].
  - reflexivity.
  - unfold bind, lift, ret. destruct (restore _ _ _); reflexivity.
  - unfold bind, lift, ret. destruct (restore_tuple _ _ _); reflexivity.
Qed.

Lemma select_mismatched (x : pyseq) (matches : list flag) :
  length matches <> length (items x) ->
  select x matches = (Ok (Instance IndexError length_message), matches).
Proof.
  intros Hlen. unfold select. unfold bind at 1, get at 1.
  destruct (Z.eqb_spec (len matches) (len (items x))) as [Heq|_];
    [unfold len in Heq; lia | reflexivity].
Qed.

Lemma picked_chars (s : pystr) (flags : list flag) :
  picked (chars s) flags = masked s flags.
Proof.
  revert flags. induction s as [|c s IH]; intros [|f flags]; try reflexivity.
  cbn [chars map picked masked str_of_elem]. fold (chars s). rewrite IH.
  destruct (int_of_flag f >=? 1); reflexivity.
Qed.

Lemma masked_as_int (s : pystr) (flags : list flag) :
  masked s (as_int <$> flags) = masked s flags.
Proof.
  revert flags. induction s as [|c s IH]; intros [|f flags]; try reflexivity.
  cbn [fmap list_fmap masked as_int int_of_flag]. rewrite IH. reflexivity.
Qed.

Lemma masked_truthy (s : pystr) (flags : list flag) :
  Forall (fun f => 0 <= int_of_flag f) flags ->
  masked s flags = masked_by_truth s flags.
Proof.
  intros H. revert s. induction H as [|f flags Hf _ IH]; intros [|c s]; try reflexivity.
  cbn [masked masked_by_truth]. unfold truthy. rewrite IH.
  destruct (Z.geb_spec (int_of_flag f) 1), (Z.eqb_spec (int_of_flag f) 0);
    try reflexivity; lia.
Qed.

Lemma as_int_id (matches : list flag) :
  Forall is_int matches -> as_int <$> matches = matches.
Proof.
  induction 1 as [|f matches Hf _ IH]; [reflexivity|].
  cbn [fmap list_fmap]. fold (as_int <$> matches). rewrite IH.
  destruct f; [reflexivity|contradiction].
Qed.

Lemma swipe_readonly character direction blankness :
  readonly (swipe character direction blankness).
Proof. intros x. rewrite swipe_run. reflexivity. Qed.

Lemma look_readonly character lookwhere : readonly (look character lookwhere).
Proof.
  intros x. unfold look. unfold bind at 1.
  rewrite (readonly_run _ x (find_grid_item_readonly character)).
  destruct (fst (find_grid_item character x)) as [item|e]; [|reflexivity].
  unfold bind, lift, get. destruct (coordinate item) as [p|e]; [|reflexivity].
  destruct (walk p lookwhere) as [ch|e]; [|reflexivity].
  destruct (_ || _); [reflexivity|].
  rewrite grab_run. destruct (let? row := _ in _); reflexivity.
Qed.

(** C7 (as amended).  For a text [s] and as many flags as it has characters,
    [select] returns the text of the characters whose flag, converted to an
    integer, is at least 1.  When no flag is negative these are exactly the
    characters whose flag is truthy. *)
Theorem select_text_by_flag (s : pystr) (matches : list flag) :
  length matches = length s ->
  fst (select (SStr s) matches) = Ok (Sequence (SStr (masked s matches)))
  /\ (Forall (fun f => 0 <= int_of_flag f) matches ->
      masked s matches = masked_by_truth s matches).
Proof.
  intros Hlen. split; [|apply masked_truthy].
  rewrite select_matched by (cbn [items]; rewrite length_map; exact Hlen).
  cbn [fst assembled items]. fold (chars s).
  rewrite picked_chars, masked_as_int. reflexivity.
Qed.

(** C8 (as amended).  The grid functions leave the grid object as it was.
    [select] does not leave [matches] as it was: when the lengths agree every
    entry is overwritten with its integer, whatever [select] then returns or
    raises.  [matches] is the same afterwards only when the lengths differ,
    or when every entry was an [int] object already. *)
Theorem select_overwrites_matches (x : pyseq) (matches : list flag) :
  (forall col row, readonly (grab col row))
  /\ (forall item, readonly (find_grid_item item))
  /\ (forall character direction blankness,
         readonly (swipe character direction blankness))
  /\ (forall character lookwhere, readonly (look character lookwhere))
  /\ (length matches = length (items x) ->
      snd (select x matches) = as_int <$> matches)
  /\ (length matches <> length (items x) -> snd (select x matches) = matches)
  /\ (Forall is_int matches -> snd (select x matches) = matches).
Proof.
  split; [exact grab_readonly|]. split; [exact find_grid_item_readonly|].
  split; [exact swipe_readonly|]. split; [exact look_readonly|].
  split; [|split].
  - intros Hlen. rewrite select_matched by exact Hlen. reflexivity.
  - intros Hlen. rewrite select_mismatched by exact Hlen. reflexivity.
  - intros Hint. destruct (decide (length matches = length (items x))) as [Hlen|Hlen].
    + rewrite select_matched by exact Hlen. cbn [snd]. apply as_int_id, Hint.
    + rewrite select_mismatched by exact Hlen. reflexivity.
Qed.

(** ** take_while *)

Lemma drain_prefix {A} (condition : A -> bool) (iterable : list A) (fuel : nat) :
  (length iterable < fuel)%nat ->
  drain condition fuel (Suspended iterable)
  = Some (longest_prefix condition iterable, Finished).
Proof.
  revert fuel. induction iterable as [|a l IH]; intros fuel Hfuel.
  - destruct fuel; [simpl in Hfuel; lia | reflexivity].
  - destruct fuel as [|fuel]; [simpl in Hfuel; lia|].
    cbn [drain next longest_prefix]. destruct (condition a); [|reflexivity].
    cbn [negb]. rewrite IH by (simpl in Hfuel; lia). reflexivity.
Qed.

Lemma longest_prefix_split {A} (condition : A -> bool) (l : list A) :
  l = longest_prefix condition l ++ drop (length (longest_prefix condition l)) l.
Proof.
  induction l as [|a l IH]; [reflexivity|].
  cbn [longest_prefix]. destruct (condition a); [|reflexivity].
  cbn [length drop app]. rewrite <- IH. reflexivity.
Qed.

Lemma longest_prefix_holds {A} (condition : A -> bool) (l : list A) :
  Forall (fun a => condition a = true) (longest_prefix condition l).
Proof.
  induction l as [|a l IH]; [constructor|].
  cbn [longest_prefix]. destruct (condition a) eqn:E; constructor; assumption.
Qed.

Lemma longest_prefix_stops {A} (condition : A -> bool) (l : list A) :
  match drop (length (longest_prefix condition l)) l with
  | [] => True
  | a :: _ => condition a = false
  end.
Proof.
  induction l as [|a l IH]; [exact I|].
  cbn [longest_prefix]. destruct (condition a) eqn:E; [exact IH|exact E].
Qed.

(** C9.  Drained with enough fuel, the generator of [take_while] yields
    exactly the longest prefix of the items that satisfy the condition: the
    items are that prefix followed by the rest, every yielded item satisfies
    the condition, and the rest is empty or starts with an item that fails
    it.  The generator is then finished, and a finished generator yields
    nothing more, so no later item is yielded even when it satisfies the
    condition.  With the items 1, 2, 3, 10, 4 and the condition "below 5" it
    yields 1, 2, 3. *)
Theorem take_while_longest_prefix {A} (condition : A -> bool)
    (iterable : list A) (fuel : nat) :
  (length iterable < fuel)%nat ->
  let yielded := longest_prefix condition iterable in
  let rest := drop (length yielded) iterable in
  drain condition fuel (take_while iterable) = Some (yielded, Finished)
  /\ iterable = yielded ++ rest
  /\ Forall (fun a => condition a = true) yielded
  /\ match rest with [] => True | a :: _ => condition a = false end
  /\ next condition Finished = (None, Finished)
  /\ drain (fun n => n <? 5) 6 (take_while [1; 2; 3; 10; 4])
     = Some ([1; 2; 3], Finished).
Proof.
  intros Hfuel yielded rest.
  split; [apply drain_prefix, Hfuel|].
  split; [apply longest_prefix_split|].
  split; [apply longest_prefix_holds|].
  split; [apply longest_prefix_stops|].
  split; reflexivity.
Qed.

(** * The claims at concrete inputs *)

(** C3, as stated, fails: column -1 and row -1 are negative, and [grab]
    returns the last character of the last row, "d", instead of raising. *)
Lemma grab_negative_index_valid :
  exists x,
    StringGrid_init (txt "ab" ++ LF :: txt "cd") = Ok x
    /\ (-1 < 0 \/ -1 < 0 \/ -1 >= width x \/ -1 >= height x)
    /\ grab (-1) (-1) x = (Ok 100%N, x)
    /\ fst (grab (-1) (-1) x) <> Raise IndexError.
Proof.
  eexists. split; [reflexivity|]. split; [left; lia|].
  split; [reflexivity|discriminate].
Qed.

Lemma grab_index_error_witness :
  StringGrid_init grid_top_right = Ok top_right
  /\ rectangular top_right
  /\ (((-1 < - width top_right \/ width top_right <= -1
        \/ 2 < - height top_right \/ height top_right <= 2) ->
       grab (-1) 2 top_right = (Raise IndexError, top_right))
      /\
      ((- width top_right <= -1 < width top_right
        /\ - height top_right <= 2 < height top_right) ->
       exists c,
         cell top_right (wrap (-1) (width top_right)) (wrap 2 (height top_right))
         = Some c
         /\ grab (-1) 2 top_right = (Ok c, top_right))).
Proof.
  split; [reflexivity|]. split; [repeat constructor|].
  apply (grab_index_error grid_top_right top_right (-1) 2);
    [reflexivity | repeat constructor].
Defined.

(** C4, at the input where it fails.  From column 1 of row 0 the path R ends
    in column 2, which the inclusive check of [look] accepts as it is the
    width, and the access raises [IndexError] instead of returning a
    character. *)
Theorem look_on_the_boundary_raises :
  exists x,
    StringGrid_init grid_top_right = Ok x
    /\ find_grid_item 88%N x = (Ok (Some (1, 0)), x)
    /\ destination 1 0 (txt "R") = (2, 0)
    /\ (0 <= 2 <= width x /\ 0 <= 0 <= height x)
    /\ look 88%N (txt "R") x = (Raise IndexError, x).
Proof.
  exists top_right. split; [reflexivity|]. split; [reflexivity|].
  split; [reflexivity|]. split; [cbn; lia|reflexivity].
Qed.

Lemma find_grid_item_first_match_witness :
  StringGrid_init grid_top_right = Ok top_right
  /\ rectangular top_right
  /\ ((exists c r,
          find_grid_item 88%N top_right = (Ok (Some (c, r)), top_right)
          /\ inside top_right c r
          /\ cell top_right c r = Some 88%N
          /\ (forall c' r', inside top_right c' r' -> scanned_before c' r' c r ->
                            cell top_right c' r' <> Some 88%N)
          /\ (forall c' r', inside top_right c' r' ->
                            cell top_right c' r' = Some 88%N ->
                            (c', r') = (c, r) \/ scanned_before c r c' r'))
      \/ (find_grid_item 88%N top_right = (Ok None, top_right)
          /\ forall c r, inside top_right c r -> cell top_right c r <> Some 88%N)).
Proof.
  split; [reflexivity|]. split; [repeat constructor|].
  apply (find_grid_item_first_match grid_top_right top_right 88%N);
    [reflexivity | repeat constructor].
Defined.

(** C6, as stated, fails: with a line feed as the fill character, moving X
    right from the top left corner gives a text of three lines, the first of
    them empty, so a grid built from it has width 0 and height 3, not 2 and 2. *)
Lemma swipe_line_feed_fill_changes_dimensions :
  exists x t x2,
    StringGrid_init grid_top_left = Ok x
    /\ swipe 88%N (txt "right") LF x = (Ok t, x)
    /\ t <> OOB
    /\ StringGrid_init t = Ok x2
    /\ (width x = 2 /\ height x = 2)
    /\ (width x2 = 0 /\ height x2 = 3).
Proof.
  exists top_left, (LF :: 88%N :: LF :: txt ".."),
    {| grid := LF :: 88%N :: LF :: txt ".."; width := 0; height := 3 |}.
  split; [reflexivity|]. split; [reflexivity|]. split; [discriminate|].
  split; [reflexivity|]. split; split; reflexivity.
Qed.

Lemma swipe_keeps_dimensions_witness :
  StringGrid_init grid_top_left = Ok top_left
  /\ rectangular top_left
  /\ plain 46%N
  /\ swipe 88%N (txt "right") 46%N top_left
     = (Ok (txt ".X" ++ LF :: txt ".."), top_left)
  /\ txt ".X" ++ LF :: txt ".." <> OOB
  /\ exists x2,
       StringGrid_init (txt ".X" ++ LF :: txt "..") = Ok x2
       /\ width x2 = width top_left /\ height x2 = height top_left.
Proof.
  split; [reflexivity|]. split; [repeat constructor|].
  split; [reflexivity|]. split; [reflexivity|]. split; [discriminate|].
  apply (swipe_keeps_dimensions grid_top_left top_left top_left 88%N
           (txt "right") 46%N);
    [reflexivity | repeat constructor | reflexivity | reflexivity
    | discriminate].
Defined.

(** C7, as stated, fails twice.  With three characters and two flags [select]
    raises nothing: it returns an [IndexError] instance as its value.  And
    with the flags -1 and 1 on "ab" it returns "b", although -1 is truthy and
    the characters with a truthy flag are "ab". *)
Lemma select_returns_error_and_skips_negative :
  select (SStr (txt "abc")) [FInt 1; FInt 0]
  = (Ok (Instance IndexError length_message), [FInt 1; FInt 0])
  /\ truthy (FInt (-1)) = true
  /\ masked_by_truth (txt "ab") [FInt (-1); FInt 1] = txt "ab"
  /\ fst (select (SStr (txt "ab")) [FInt (-1); FInt 1])
     = Ok (Sequence (SStr (txt "b"))).
Proof. repeat split; reflexivity. Qed.

Lemma select_text_by_flag_witness :
  length [FInt 1; FInt 0; FInt 1; FInt 0] = length (txt "abcd")
  /\ fst (select (SStr (txt "abcd")) [FInt 1; FInt 0; FInt 1; FInt 0])
     = Ok (Sequence (SStr (txt "ac"))).
Proof.
  split; [reflexivity|].
  destruct (select_text_by_flag (txt "abcd") [FInt 1; FInt 0; FInt 1; FInt 0])
    as [H _]; [reflexivity | exact H].
Defined.

(** C8, as stated, fails: after [select] on "ab" the mask that held [True]
    and [False] holds the integers 1 and 0. *)
Lemma select_changes_boolean_mask :
  snd (select (SStr (txt "ab")) [FBool true; FBool false]) = [FInt 1; FInt 0]
  /\ snd (select (SStr (txt "ab")) [FBool true; FBool false])
     <> [FBool true; FBool false].
Proof. split; [reflexivity|discriminate]. Qed.

Lemma select_overwrites_matches_witness :
  length [FBool true; FBool false] = length (items (SStr (txt "ab")))
  /\ snd (select (SStr (txt "ab")) [FBool true; FBool false])
     = as_int <$> [FBool true; FBool false].
Proof.
  split; [reflexivity|].
  destruct (select_overwrites_matches (SStr (txt "ab")) [FBool true; FBool false])
    as (_ & _ & _ & _ & H & _).
  apply H. reflexivity.
Defined.

Lemma take_while_longest_prefix_witness :
  (length [1; 2; 3; 10; 4] < 6)%nat
  /\ drain (fun n => n <? 5) 6 (take_while [1; 2; 3; 10; 4])
     = Some ([1; 2; 3], Finished).
Proof.
  split; [cbn; lia|].
  destruct (take_while_longest_prefix (fun n => n <? 5) [1; 2; 3; 10; 4] 6)
    as [H _]; [cbn; lia | exact H].
Defined.

Lemma look_absent_raises_witness :
  StringGrid_init grid_top_right = Ok top_right
  /\ ~ occurs 89%N top_right
  /\ exists e,
       (forall path, look 89%N path top_right = (Raise e, top_right))
       /\ (rectangular top_right -> e = TypeError).
Proof.
  assert (~ occurs 89%N top_right) as Habsent.
  { intros (r & Hr & Hin).
    change (rows top_right) with [[46; 88]; [46; 46]]%N in Hr.
    rewrite !elem_of_cons, elem_of_nil in Hr.
    destruct Hr as [-> | [-> | []]];
      rewrite !elem_of_cons, elem_of_nil in Hin; intuition discriminate. }
  split; [reflexivity|]. split; [exact Habsent|].
  apply (look_absent_raises grid_top_right top_right 89%N);
    [reflexivity | exact Habsent].
Defined.

(** * Further properties of the code *)

(** ** Building a grid *)

Lemma splitlines_nonempty (c : char) (s : pystr) : splitlines (c :: s) <> [].
Proof.
  cbn [splitlines]. destruct (is_linebreak c); [discriminate|].
  destruct (splitlines s); discriminate.
Qed.

Lemma init_rows (text : pystr) (row0 : pystr) (rs : list pystr) :
  splitlines text = row0 :: rs ->
  StringGrid_init text
  = Ok {| grid := text; width := len row0; height := len (row0 :: rs) |}.
Proof. intros E. unfold StringGrid_init. rewrite E. reflexivity. Qed.

(** X1.  [StringGrid] cannot be built from the empty text: taking the first
    row raises [IndexError].  Every other text builds a grid, with at least
    one row, the number of its rows as height and the length of its first row
    as width. *)
Theorem StringGrid_init_needs_text (text : pystr) :
  (text = [] -> StringGrid_init text = Raise IndexError)
  /\ (text <> [] ->
      exists x row0,
        StringGrid_init text = Ok x
        /\ grid x = text
        /\ rows x !! 0%nat = Some row0
        /\ width x = len row0
        /\ height x = len (rows x)
        /\ 1 <= height x).
Proof.
  split.
  - intros ->. reflexivity.
  - intros Hne. destruct text as [|c s]; [contradiction|].
    pose proof (splitlines_nonempty c s) as Hrows.
    destruct (splitlines (c :: s)) as [|row0 rs] eqn:E; [contradiction|].
    eexists. exists row0. rewrite (init_rows _ _ _ E).
    split; [reflexivity|]. split; [reflexivity|].
    unfold rows. cbn [grid width height]. rewrite E.
    split; [reflexivity|]. split; [reflexivity|]. split; [reflexivity|].
    unfold len. cbn [length]. lia.
Qed.

(** X2.  No cell of a grid holds a line boundary: whatever the text of the
    grid object and whatever the indices, negative or not, a character that
    [grab] returns is none of the characters [splitlines] splits at. *)
Theorem grab_never_line_boundary (g g' : StringGrid) (col row : Z) (c : char) :
  grab col row g = (Ok c, g') ->
  is_linebreak c = false.
Proof.
  rewrite grab_run. intros Hgrab.
  destruct (py_getitem (rows g) row) as [r|] eqn:Er; [|discriminate].
  cbn [rbind] in Hgrab.
  destruct (py_getitem r col) as [c'|] eqn:Ec; [|discriminate].
  injection Hgrab as -> _.
  pose proof (splitlines_plain (grid g)) as Hall.
  rewrite Forall_forall in Hall.
  specialize (Hall r (py_getitem_elem _ _ _ Er)).
  rewrite Forall_forall in Hall. exact (Hall c (py_getitem_elem _ _ _ Ec)).
Qed.

Lemma elem_of_py_range (n i : Z) : i ∈ py_range n -> 0 <= i < n.
Proof.
  unfold py_range. intros Hin.
  apply list_elem_of_fmap in Hin as (k & -> & Hk).
  apply elem_of_seq in Hk. lia.
Qed.

Lemma find_in_row_answer item y cols (g g' : StringGrid) c r :
  find_in_row item y cols g = (Ok (Some (c, r)), g') ->
  r = y /\ c ∈ cols /\ grab c r g = (Ok item, g).
Proof.
  induction cols as [|c0 cols IH]; [discriminate|].
  rewrite find_in_row_cons.
  pose proof (readonly_run _ g (grab_readonly c0 y)) as Hrun. rewrite Hrun.
  destruct (fst (grab c0 y g)) as [ch|e] eqn:E; [|discriminate].
  destruct (N.eqb_spec ch item) as [->|Hne].
  - intros [= <- <- _]. split; [reflexivity|]. split; [left|exact Hrun].
  - intros Hrest. destruct (IH Hrest) as (-> & Hin & Hgrab).
    split; [reflexivity|]. split; [right; exact Hin|exact Hgrab].
Qed.

Lemma find_in_rows_answer item ys (g g' : StringGrid) c r :
  find_in_rows item ys g = (Ok (Some (c, r)), g') ->
  r ∈ ys /\ c ∈ py_range (width g) /\ grab c r g = (Ok item, g).
Proof.
  induction ys as [|y ys IH]; [discriminate|].
  rewrite find_in_rows_cons.
  pose proof (readonly_run _ g (find_in_row_readonly item y (py_range (width g))))
    as Hrun.
  rewrite Hrun.
  destruct (fst (find_in_row item y (py_range (width g)) g)) as [[p|]|e];
    [| |discriminate].
  - intros [= -> _]. destruct (find_in_row_answer _ _ _ _ _ _ _ Hrun) as (-> & Hc & Hg).
    split; [left|]. split; assumption.
  - intros Hrest. destruct (IH Hrest) as (Hr & Hc & Hg).
    split; [right; exact Hr|]. split; assumption.
Qed.

(** X3.  A coordinate [find_grid_item] returns can be used as it is, on any
    grid object, ragged or not: it lies within the declared width and height,
    [grab] at it returns the item without raising, and the grid is left as it
    was. *)
Theorem find_grid_item_answer_grabs (g g' : StringGrid) (item : char) (c r : Z) :
  find_grid_item item g = (Ok (Some (c, r)), g') ->
  g' = g /\ inside g c r /\ grab c r g = (Ok item, g).
Proof.
  intros Hfind.
  assert (g' = g) as ->.
  { pose proof (find_grid_item_readonly item g) as Hro.
    rewrite Hfind in Hro. exact Hro. }
  split; [reflexivity|].
  destruct (find_in_rows_answer item _ g g c r Hfind) as (Hr & Hc & Hgrab).
  split; [|exact Hgrab].
  split; [exact (elem_of_py_range _ _ Hc)|exact (elem_of_py_range _ _ Hr)].
Qed.

(** X4.  The text [bounds] returns can always be read back: split at "x" it
    has exactly two parts, and [int] of them gives the width and the height
    of the grid object, whatever integers these are. *)
Theorem bounds_reads_back (g : StringGrid) :
  exists b,
    bounds g = (Ok b, g)
    /\ b = str_of_int (width g) ++ 120%N :: str_of_int (height g)
    /\ py_split 120%N b = [str_of_int (width g); str_of_int (height g)]
    /\ unpack_ints (py_split 120%N b) = Ok (width g, height g).
Proof.
  eexists. split; [reflexivity|]. split; [reflexivity|].
  split; [|apply bounds_read_back].
  change (txt "x" ++ str_of_int (height g)) with (120%N :: str_of_int (height g)).
  rewrite (py_split_first _ _ _ (str_of_int_no_x (width g))).
  rewrite (py_split_whole _ _ (str_of_int_no_x (height g))). reflexivity.
Qed.

(** ** make_grid *)

Lemma py_join_LF_cons (r : pystr) (r2 : pystr) (rs : list pystr) :
  py_join [LF] (r :: r2 :: rs) = r ++ LF :: py_join [LF] (r2 :: rs).
Proof. reflexivity. Qed.

Lemma repeat_text_length (s : pystr) (k : nat) :
  length (concat (replicate k s)) = (k * length s)%nat.
Proof.
  induction k as [|k IH]; [reflexivity|].
  cbn [replicate concat]. rewrite length_app, IH. lia.
Qed.

Lemma repeat_text_Forall (P : N -> Prop) (s : pystr) (k : nat) :
  Forall P s -> Forall P (concat (replicate k s)).
Proof.
  intros Hs. induction k as [|k IH]; [constructor|].
  cbn [replicate concat]. apply Forall_app. split; assumption.
Qed.

(** X5.  [make_grid] and [StringGrid] fit together: for at least one row and
    one column, and a character text that is not empty and holds no line
    boundary, the text [make_grid] returns builds a rectangular grid whose
    height is the number of rows asked for and whose width is the number of
    columns times the length of the character text; each of its rows is that
    text repeated, so every cell holds one of its characters. *)
Theorem make_grid_builds_grid (length_ width_ : Z) (character : pystr) :
  1 <= length_ ->
  1 <= width_ ->
  character <> [] ->
  Forall plain character ->
  exists x,
    StringGrid_init (make_grid length_ width_ character) = Ok x
    /\ height x = length_
    /\ width x = width_ * len character
    /\ rectangular x
    /\ rows x = replicate (Z.to_nat length_) (py_repeat_text character width_)
    /\ (forall col row, inside x col row ->
          exists c, cell x col row = Some c /\ c ∈ character).
Proof.
  intros Hn Hw Hne Hplain.
  set (line := py_repeat_text character width_).
  assert (length line = (Z.to_nat width_ * length character)%nat) as Hlen
    by apply repeat_text_length.
  assert (line <> []) as Hline.
  { intros E. rewrite E in Hlen. destruct character; [contradiction|].
    simpl in Hlen. lia. }
  assert (splitlines (make_grid length_ width_ character)
          = replicate (Z.to_nat length_) line) as Hrows.
  { apply splitlines_join. apply Forall_replicate.
    split; [exact Hline|]. apply repeat_text_Forall, Hplain. }
  destruct (Z.to_nat length_) as [|k] eqn:Ek; [lia|].
  cbn [replicate] in Hrows.
  eexists. rewrite (init_rows _ _ _ Hrows).
  split; [reflexivity|]. cbn [height width].
  split; [unfold len; cbn [length]; rewrite length_replicate; lia|].
  split; [unfold len; rewrite Hlen; lia|].
  assert (rows {| grid := make_grid length_ width_ character;
                  width := len line;
                  height := len (line :: replicate k line) |}
          = replicate (S k) line) as Hr by exact Hrows.
  split; [|split; [exact Hr|]].
  - unfold rectangular. rewrite Hr. apply Forall_replicate. reflexivity.
  - intros col row [Hc Hrow]. cbn [width height] in Hc, Hrow.
    unfold cell, cell_of. rewrite Hr.
    rewrite lookup_replicate_2
      by (unfold len in Hrow; cbn [length] in Hrow;
          rewrite length_replicate in Hrow; lia).
    destruct (lookup_lt_is_Some_2 line (Z.to_nat col)) as [c Hcell];
      [unfold len in Hc; lia|].
    exists c. split; [exact Hcell|].
    assert (Forall (fun c => c ∈ character) line) as Hall.
    { apply repeat_text_Forall. rewrite Forall_forall. auto. }
    exact (Forall_lookup_1 _ _ _ _ Hall Hcell).
Qed.

Lemma repeat_text_empty (character : pystr) (width_ : Z) :
  width_ <= 0 \/ character = [] -> py_repeat_text character width_ = [].
Proof.
  unfold py_repeat_text. intros [Hw | ->].
  - replace (Z.to_nat width_) with 0%nat by lia. reflexivity.
  - induction (Z.to_nat width_) as [|k IH]; [reflexivity|exact IH].
Qed.

Lemma py_join_empty_rows (k : nat) :
  py_join [LF] (replicate (S k) []) = replicate k LF.
Proof.
  induction k as [|k IH]; [reflexivity|].
  change (replicate (S (S k)) []) with (@nil N :: [] :: replicate k []).
  rewrite py_join_LF_cons. change ([] :: replicate k []) with (replicate (S k) (@nil N)).
  rewrite IH. reflexivity.
Qed.

Lemma splitlines_line_feeds (k : nat) :
  splitlines (replicate k LF) = replicate k [].
Proof.
  induction k as [|k IH]; [reflexivity|].
  cbn [replicate splitlines]. change (is_linebreak LF) with true. cbv iota.
  f_equal. destruct (replicate k LF) eqn:E; [|exact IH].
  rewrite <- IH. reflexivity.
Qed.

(** X6.  With no columns to fill (a width that is not positive, or an empty
    character text) [make_grid] returns line feeds only, one fewer than the
    rows asked for.  For at most one row that is the empty text, which
    [StringGrid] refuses with [IndexError]; for two rows or more the grid
    built has width 0 and one row fewer than asked for. *)
Theorem make_grid_without_columns (length_ width_ : Z) (character : pystr) :
  width_ <= 0 \/ character = [] ->
  make_grid length_ width_ character = replicate (Z.to_nat length_ - 1) LF
  /\ (length_ <= 1 ->
      StringGrid_init (make_grid length_ width_ character) = Raise IndexError)
  /\ (2 <= length_ ->
      exists x,
        StringGrid_init (make_grid length_ width_ character) = Ok x
        /\ width x = 0
        /\ height x = length_ - 1).
Proof.
  intros Hempty. unfold make_grid, py_repeat_list.
  rewrite (repeat_text_empty _ _ Hempty).
  assert (py_join [LF] (replicate (Z.to_nat length_) [])
          = replicate (Z.to_nat length_ - 1) LF) as ->.
  { destruct (Z.to_nat length_) as [|k]; [reflexivity|].
    rewrite py_join_empty_rows. f_equal. lia. }
  split; [reflexivity|]. split.
  - intros Hn. replace (Z.to_nat length_ - 1)%nat with 0%nat by lia. reflexivity.
  - intros Hn. destruct (Z.to_nat length_ - 1)%nat as [|k] eqn:Ek; [lia|].
    pose proof (splitlines_line_feeds (S k)) as Hrows.
    cbn [replicate] in Hrows. cbn [replicate].
    eexists. rewrite (init_rows _ _ _ Hrows). split; [reflexivity|].
    cbn [width height]. split; [reflexivity|].
    unfold len. cbn [length]. rewrite length_replicate. lia.
Qed.

(** ** A trailing line feed *)

Lemma splitlines_cons (c : char) (s : pystr) :
  splitlines (c :: s) =
  if is_linebreak c then
    [] :: match s with
          | c' :: s'' =>
              if (c =? CR)%N && (c' =? LF)%N then splitlines s'' else splitlines s
          | [] => []
          end
  else match splitlines s with
       | [] => [[c]]
       | l :: ls => (c :: l) :: ls
       end.
Proof. reflexivity. Qed.

Lemma splitlines_trailing_LF_upto (n : nat) (s : pystr) (c : char) :
  (length s <= n)%nat ->
  last s = Some c ->
  plain c ->
  splitlines (s ++ [LF]) = splitlines s.
Proof.
  revert s. induction n as [|n IH]; intros s Hn Hlast Hc.
  - destruct s; [discriminate|simpl in Hn; lia].
  - destruct s as [|a s1]; [discriminate|].
    destruct s1 as [|b s2].
    + injection Hlast as ->. cbn [app splitlines]. rewrite Hc.
      change (is_linebreak LF) with true. reflexivity.
    + assert (last (b :: s2) = Some c) as Hlast1 by exact Hlast.
      change ((a :: b :: s2) ++ [LF]) with (a :: (b :: s2) ++ [LF]).
      rewrite (splitlines_cons a ((b :: s2) ++ [LF])).
      rewrite (splitlines_cons a (b :: s2)).
      destruct (is_linebreak a).
      * f_equal. cbn [app]. destruct ((a =? CR)%N && (b =? LF)%N) eqn:Ecr.
        -- destruct s2 as [|d s3].
           ++ injection Hlast1 as ->. apply andb_true_iff in Ecr as [_ E].
              apply N.eqb_eq in E. subst. discriminate.
           ++ apply (IH (d :: s3)); [simpl in *; lia|exact Hlast1|exact Hc].
        -- apply (IH (b :: s2)); [simpl in *; lia|exact Hlast1|exact Hc].
      * rewrite (IH (b :: s2)); [reflexivity|simpl in *; lia|exact Hlast1|exact Hc].
Qed.

(** X7.  A line feed at the end of the text adds no row: when the text ends
    in a character that is no line boundary, [StringGrid] builds from the
    text followed by a line feed a grid with the same rows, the same width
    and the same height as from the text itself. *)
Theorem StringGrid_init_trailing_line_feed (text : pystr) (c : char) (x : StringGrid) :
  last text = Some c ->
  plain c ->
  StringGrid_init text = Ok x ->
  exists x2,
    StringGrid_init (text ++ [LF]) = Ok x2
    /\ rows x2 = rows x
    /\ width x2 = width x
    /\ height x2 = height x.
Proof.
  intros Hlast Hc Hinit.
  pose proof (splitlines_trailing_LF_upto (length text) text c (le_n _) Hlast Hc)
    as Hsame.
  unfold StringGrid_init in *. rewrite Hsame.
  destruct (py_getitem (splitlines text) 0) as [row0|]; [|discriminate].
  injection Hinit as <-. eexists. split; [reflexivity|].
  unfold rows. cbn [grid width height]. rewrite Hsame. auto.
Qed.

(** ** swipe, beyond the bounds check *)

Lemma set_cell_succeeds (rs : list pystr) (i j : Z) (v : char) (w : nat) :
  Forall (fun r => length r = w) rs ->
  0 <= i < len rs ->
  0 <= j < Z.of_nat w ->
  exists rs',
    set_cell rs i j v = Ok rs'
    /\ length rs' = length rs
    /\ Forall (fun r => length r = w) rs'.
Proof.
  intros Hrs Hi Hj. unfold set_cell, py_getitem.
  rewrite (py_index_inside rs i Hi). cbn [rbind].
  destruct (lookup_lt_is_Some_2 rs (Z.to_nat i)) as [row Hrow];
    [unfold len in Hi; lia|].
  rewrite Hrow. cbn [rbind].
  pose proof (Forall_lookup_1 _ _ _ _ Hrs Hrow) as Hlen. simpl in Hlen.
  unfold py_setitem. rewrite (py_index_inside row j) by (unfold len; lia).
  cbn [rbind]. rewrite (py_index_inside rs i Hi). cbn [rbind].
  eexists. split; [reflexivity|]. split; [apply length_insert|].
  apply Forall_insert; [exact Hrs|]. rewrite length_insert. exact Hlen.
Qed.

Lemma set_cell_row_missing (rs : list pystr) (i j : Z) (v : char) :
  len rs <= i -> set_cell rs i j v = Raise IndexError.
Proof.
  intros Hi. unfold set_cell. rewrite py_getitem_outside by lia. reflexivity.
Qed.

Lemma set_cell_column_missing (rs : list pystr) (i j : Z) (v : char) (w : nat) :
  Forall (fun r => length r = w) rs ->
  0 <= i < len rs ->
  Z.of_nat w <= j ->
  set_cell rs i j v = Raise IndexError.
Proof.
  intros Hrs Hi Hj. unfold set_cell, py_getitem.
  rewrite (py_index_inside rs i Hi). cbn [rbind].
  destruct (lookup_lt_is_Some_2 rs (Z.to_nat i)) as [row Hrow];
    [unfold len in Hi; lia|].
  rewrite Hrow. cbn [rbind].
  pose proof (Forall_lookup_1 _ _ _ _ Hrs Hrow) as Hlen. simpl in Hlen.
  unfold py_setitem. rewrite py_index_outside by (unfold len; lia). reflexivity.
Qed.

Lemma out_of_bounds_false (x : StringGrid) (new_x new_y : Z) :
  out_of_bounds x new_x new_y = false ->
  0 <= new_x < height x /\ 0 <= new_y < width x.
Proof.
  unfold out_of_bounds. rewrite !orb_false_iff, !Z.ltb_ge.
  intros (((Ha & Hb) & Hc) & Hd).
  destruct (Z.geb_spec new_x (height x)); [discriminate|].
  destruct (Z.geb_spec new_y (width x)); [discriminate|]. lia.
Qed.

(** A move that passes the bounds check succeeds when the two indices of the
    second write exist as well: row [c] and column [r]. *)
Lemma swipe_in_bounds_returns (text : pystr) (x : StringGrid) (character : char)
    (direction : pystr) (blankness : char) (d : heading) (c r : Z) :
  StringGrid_init text = Ok x ->
  rectangular x ->
  find_grid_item character x = (Ok (Some (c, r)), x) ->
  lower direction = keyword d ->
  out_of_bounds x (c + snd (step d)) (r + fst (step d)) = false ->
  c < height x ->
  r < width x ->
  exists rx,
    swipe character direction blankness x = (Ok (py_join [LF] rx), x)
    /\ forall c' r', 0 <= c' -> 0 <= r' ->
         cell_of rx c' r' =
         if decide (r' = c /\ c' = r) then Some blankness
         else if decide (r' = c + snd (step d) /\ c' = r + fst (step d))
              then Some character
              else cell x c' r'.
Proof.
  intros Hinit Hrect Hfind Hd Hin Hc Hr.
  destruct (find_in_rows_answer character _ x x c r Hfind) as (Hr0 & Hc0 & _).
  apply elem_of_py_range in Hr0, Hc0.
  pose proof (init_height _ _ Hinit) as Hh.
  pose proof (rectangular_lengths _ (init_width_nonneg _ _ Hinit) Hrect) as Hlens.
  destruct (out_of_bounds_false _ _ _ Hin) as [Hx Hy].
  rewrite (swipe_located _ _ _ _ d c r Hfind Hd), Hin.
  destruct (set_cell_succeeds (rows x) (c + snd (step d)) (r + fst (step d))
              character _ Hlens) as (rx1 & E1 & Hn1 & Hlens1); [lia|lia|].
  destruct (set_cell_succeeds rx1 c r blankness _ Hlens1)
    as (rx2 & E2 & _ & _); [unfold len in *; lia|lia|].
  rewrite E1. cbn [rbind]. rewrite E2. cbn [rbind].
  exists rx2. split; [reflexivity|]. intros c' r' Hc' Hr'.
  rewrite (set_cell_cell_of _ _ _ _ _ c' r' (proj1 Hc0) (proj1 Hr0) Hc' Hr' E2).
  destruct (decide (r' = c /\ c' = r)); [reflexivity|].
  apply (set_cell_cell_of _ _ _ _ _ c' r' (proj1 Hx) (proj1 Hy) Hc' Hr' E1).
Qed.
(** The defect behind C2, in general: the bounds check of [swipe] is applied
    to the transposed coordinate.  With the target in the top row at a column
    from 1 on and below the height, moving up leaves the grid, and [swipe]
    returns a grid with the character written in column 0 instead of "OOB".
    With the target in the top row at a column from 1 on, moving left stays
    in the grid, and [swipe] returns "OOB". *)
Lemma swipe_check_is_transposed (text : pystr) (x : StringGrid) (character : char)
    (direction : pystr) (blankness : char) (c : Z) :
  StringGrid_init text = Ok x ->
  rectangular x ->
  find_grid_item character x = (Ok (Some (c, 0)), x) ->
  1 <= c ->
  (lower direction = keyword Up ->
   c < height x ->
   ~ inside x (c + fst (step Up)) (0 + snd (step Up))
   /\ exists rx,
        swipe character direction blankness x = (Ok (py_join [LF] rx), x)
        /\ cell_of rx 0 (c - 1) = Some character)
  /\ (lower direction = keyword Left ->
      inside x (c + fst (step Left)) (0 + snd (step Left))
      /\ swipe character direction blankness x = (Ok OOB, x)).
Proof.
  intros Hinit Hrect Hfind Hc.
  destruct (find_in_rows_answer character _ x x c 0 Hfind) as (Hr0 & Hc0 & _).
  apply elem_of_py_range in Hr0, Hc0. split.
  - intros Hd Hch. split; [unfold inside; cbn [step fst snd]; lia|].
    assert (out_of_bounds x (c + snd (step Up)) (0 + fst (step Up)) = false) as Hin.
    { unfold out_of_bounds. cbn [step fst snd].
      rewrite !orb_false_iff, !Z.ltb_ge. repeat split; try lia;
        match goal with |- (?a >=? ?b) = false =>
          destruct (Z.geb_spec a b); [lia|reflexivity] end. }
    destruct (swipe_in_bounds_returns text x character direction blankness Up c 0
                Hinit Hrect Hfind Hd Hin) as (rx & Hrun & Hcells); [lia|lia|].
    exists rx. split; [exact Hrun|].
    rewrite Hcells by lia. cbn [step fst snd].
    destruct (decide (c - 1 = c /\ 0 = 0)) as [[? _]|_]; [lia|].
    destruct (decide (c - 1 = c + -1 /\ 0 = 0 + 0)) as [_|Hno]; [reflexivity|].
    exfalso. apply Hno. lia.
  - intros Hd. split; [unfold inside; cbn [step fst snd]; lia|].
    apply (swipe_out_of_bounds x character direction blankness Left c 0 Hfind Hd).
    cbn [step fst snd]. lia.
Qed.

(** X8.  When the target sits on the diagonal, column [k] of row [k], a move
    that passes the bounds check is the move the direction names: in the rows
    [swipe] joins into its result the cell one step away (a column to the left
    or right, a row up or down) holds the character, the cell the target was
    in holds the fill character, and every other cell is as it was. *)
Theorem swipe_on_diagonal_moves (text : pystr) (x : StringGrid) (character : char)
    (direction : pystr) (blankness : char) (d : heading) (k : Z) :
  StringGrid_init text = Ok x ->
  rectangular x ->
  find_grid_item character x = (Ok (Some (k, k)), x) ->
  lower direction = keyword d ->
  out_of_bounds x (k + snd (step d)) (k + fst (step d)) = false ->
  exists rx,
    swipe character direction blankness x = (Ok (py_join [LF] rx), x)
    /\ cell_of rx (k + fst (step d)) (k + snd (step d)) = Some character
    /\ cell_of rx k k = Some blankness
    /\ forall c' r', 0 <= c' -> 0 <= r' ->
         (c', r') <> (k, k) ->
         (c', r') <> (k + fst (step d), k + snd (step d)) ->
         cell_of rx c' r' = cell x c' r'.
Proof.
  intros Hinit Hrect Hfind Hd Hin.
  destruct (find_in_rows_answer character _ x x k k Hfind) as (Hr0 & Hc0 & _).
  apply elem_of_py_range in Hr0, Hc0.
  destruct (out_of_bounds_false _ _ _ Hin) as [Hx Hy].
  destruct (swipe_in_bounds_returns text x character direction blankness d k k
              Hinit Hrect Hfind Hd Hin) as (rx & Hrun & Hcells); [lia|lia|].
  exists rx. split; [exact Hrun|]. split; [|split].
  - rewrite Hcells by lia.
    destruct (decide (k + snd (step d) = k /\ k + fst (step d) = k)) as [[? ?]|_];
      [destruct d; cbn in *; lia|].
    destruct (decide (k + snd (step d) = k + snd (step d)
                      /\ k + fst (step d) = k + fst (step d))) as [_|[]]; auto.
  - rewrite Hcells by lia.
    destruct (decide (k = k /\ k = k)) as [_|[]]; auto.
  - intros c' r' Hc' Hr' Hne1 Hne2. rewrite Hcells by assumption.
    destruct (decide (r' = k /\ c' = k)) as [[-> ->]|_]; [contradiction|].
    destruct (decide (r' = k + snd (step d) /\ c' = k + fst (step d)))
      as [[-> ->]|_]; [contradiction|reflexivity].
Qed.

Lemma steps_unknown (direction : pystr) :
  (forall d, direction <> keyword d) -> steps direction = Raise KeyError.
Proof.
  intros Hd. unfold steps, directs, pystr_eqb.
  pose proof (Hd Left). pose proof (Hd Right). pose proof (Hd Up). pose proof (Hd Down).
  cbn [keyword] in *.
  repeat case_bool_decide; try contradiction; reflexivity.
Qed.

Lemma find_grid_item_absent (text : pystr) (x : StringGrid) (item : char) :
  StringGrid_init text = Ok x ->
  rectangular x ->
  ~ occurs item x ->
  find_grid_item item x = (Ok None, x).
Proof.
  intros Hinit Hrect Habsent.
  destruct (find_grid_item_scan text x item Hinit Hrect)
    as [(c & r & _ & _ & Hcell & _)|[Hf _]]; [|exact Hf].
  exfalso. exact (Habsent (cell_occurs _ _ _ _ Hcell)).
Qed.

(** X9.  The two ways [swipe] fails on a rectangular grid before it looks at
    any bound.  A direction that is, in lower case, none of left, right, up
    and down raises [KeyError], whether or not the character is in the grid.
    One of the four directions with a character that occurs nowhere in the
    grid raises [TypeError].  The grid is left as it was in both cases. *)
Theorem swipe_key_and_type_errors (text : pystr) (x : StringGrid) (character : char)
    (direction : pystr) (blankness : char) :
  StringGrid_init text = Ok x ->
  rectangular x ->
  ((forall d, lower direction <> keyword d) ->
   swipe character direction blankness x = (Raise KeyError, x))
  /\ ((exists d, lower direction = keyword d) ->
      ~ occurs character x ->
      swipe character direction blankness x = (Raise TypeError, x)).
Proof.
  intros Hinit Hrect. split.
  - intros Hd. rewrite swipe_run, (steps_unknown _ Hd).
    destruct (find_grid_item_scan text x character Hinit Hrect)
      as [(c & r & -> & _)|[-> _]]; reflexivity.
  - intros [d Hd] Habsent.
    rewrite swipe_run, (find_grid_item_absent _ _ _ Hinit Hrect Habsent).
    rewrite Hd, steps_keyword. reflexivity.
Qed.

Lemma lower_char_idempotent (c : char) : lower_char (lower_char c) = lower_char c.
Proof.
  unfold lower_char.
  destruct ((65 <=? c)%N && (c <=? 90)%N) eqn:E; [|rewrite E; reflexivity].
  apply andb_true_iff in E as [E1 E2]. apply N.leb_le in E1, E2.
  destruct ((65 <=? c + 32)%N && (c + 32 <=? 90)%N) eqn:E'; [|reflexivity].
  apply andb_true_iff in E' as [_ E']. apply N.leb_le in E'. lia.
Qed.

(** X10.  [swipe] reads its direction without regard to letter case: two
    directions that agree in lower case give the same result on every grid,
    and a direction gives the same result as its lower-case form. *)
Theorem swipe_ignores_letter_case (x : StringGrid) (character : char)
    (direction1 direction2 : pystr) (blankness : char) :
  lower direction1 = lower direction2 ->
  swipe character direction1 blankness x = swipe character direction2 blankness x
  /\ swipe character (lower direction1) blankness x
     = swipe character direction1 blankness x.
Proof.
  intros Hlow. split.
  - rewrite !swipe_run, Hlow. reflexivity.
  - rewrite !swipe_run.
    assert (lower (lower direction1) = lower direction1) as ->; [|reflexivity].
    unfold lower. rewrite map_map. apply map_ext. intros c.
    apply lower_char_idempotent.
Qed.

Lemma occurs_cell (text : pystr) (x : StringGrid) (item : char) :
  StringGrid_init text = Ok x ->
  rectangular x ->
  occurs item x ->
  exists c r, inside x c r /\ cell x c r = Some item.
Proof.
  intros Hinit Hrect (row & Hrow & Hitem).
  pose proof (init_height _ _ Hinit) as Hh.
  apply list_elem_of_lookup in Hrow as [i Hi].
  apply list_elem_of_lookup in Hitem as [j Hj].
  pose proof (Forall_lookup_1 _ _ _ _ Hrect Hi) as Hlen. simpl in Hlen.
  exists (Z.of_nat j), (Z.of_nat i). split.
  - apply lookup_lt_Some in Hi, Hj. unfold inside, len in *. lia.
  - unfold cell, cell_of. rewrite !Nat2Z.id, Hi. exact Hj.
Qed.

Lemma find_grid_item_present (text : pystr) (x : StringGrid) (item : char) :
  StringGrid_init text = Ok x ->
  rectangular x ->
  occurs item x ->
  exists c r, find_grid_item item x = (Ok (Some (c, r)), x) /\ inside x c r.
Proof.
  intros Hinit Hrect Hocc.
  destruct (find_grid_item_scan text x item Hinit Hrect)
    as [(c & r & Hf & Hin & _)|[_ Hnone]]; [eauto|].
  destruct (occurs_cell _ _ _ Hinit Hrect Hocc) as (c & r & Hin & Hcell).
  exfalso. exact (Hnone c r Hin Hcell).
Qed.

(** X11.  On a square grid [swipe] never raises for a character that occurs
    in the grid and one of the four directions: it returns a text, the
    sentinel or the rows joined. *)
Theorem swipe_square_grid_returns (text : pystr) (x : StringGrid) (character : char)
    (direction : pystr) (blankness : char) (d : heading) :
  StringGrid_init text = Ok x ->
  rectangular x ->
  width x = height x ->
  occurs character x ->
  lower direction = keyword d ->
  exists t, swipe character direction blankness x = (Ok t, x).
Proof.
  intros Hinit Hrect Hsquare Hocc Hd.
  destruct (find_grid_item_present _ _ _ Hinit Hrect Hocc) as (c & r & Hfind & [Hc Hr]).
  destruct (out_of_bounds x (c + snd (step d)) (r + fst (step d))) eqn:Eout.
  - exists OOB. rewrite (swipe_located _ _ _ _ d c r Hfind Hd), Eout. reflexivity.
  - destruct (swipe_in_bounds_returns text x character direction blankness d c r
                Hinit Hrect Hfind Hd Eout) as (rx & Hrun & _); [lia|lia|].
    eauto.
Qed.

(** X12.  On a grid that is not square [swipe] can raise [IndexError] after
    passing its own bounds check, because the second write uses the column of
    the target as a row index and its row as a column index.  Moving left a
    target whose row index equals the width raises, as does moving up a
    target whose column index equals the height. *)
Theorem swipe_index_error_off_square (text : pystr) (x : StringGrid)
    (character : char) (direction : pystr) (blankness : char) (d : heading)
    (c r : Z) :
  StringGrid_init text = Ok x ->
  rectangular x ->
  find_grid_item character x = (Ok (Some (c, r)), x) ->
  lower direction = keyword d ->
  (d = Left /\ r = width x /\ c < height x)
  \/ (d = Up /\ c = height x /\ r < width x) ->
  out_of_bounds x (c + snd (step d)) (r + fst (step d)) = false
  /\ swipe character direction blankness x = (Raise IndexError, x).
Proof.
  intros Hinit Hrect Hfind Hd Hcase.
  destruct (find_in_rows_answer character _ x x c r Hfind) as (Hr0 & Hc0 & _).
  apply elem_of_py_range in Hr0, Hc0.
  pose proof (init_height _ _ Hinit) as Hh.
  pose proof (rectangular_lengths _ (init_width_nonneg _ _ Hinit) Hrect) as Hlens.
  assert (out_of_bounds x (c + snd (step d)) (r + fst (step d)) = false) as Hin.
  { unfold out_of_bounds. rewrite !orb_false_iff, !Z.ltb_ge.
    destruct Hcase as [(-> & ? & ?)|(-> & ? & ?)]; cbn [step fst snd];
      repeat split; try lia;
      match goal with |- (?a >=? ?b) = false =>
        destruct (Z.geb_spec a b); [lia|reflexivity] end. }
  split; [exact Hin|].
  destruct (out_of_bounds_false _ _ _ Hin) as [Hx Hy].
  rewrite (swipe_located _ _ _ _ d c r Hfind Hd), Hin.
  destruct (set_cell_succeeds (rows x) (c + snd (step d)) (r + fst (step d))
              character _ Hlens) as (rx1 & E1 & Hn1 & Hlens1); [lia|lia|].
  rewrite E1. cbn [rbind].
  destruct Hcase as [(_ & Hrw & Hch)|(_ & Hch & Hrw)].
  - rewrite (set_cell_column_missing rx1 c r blankness _ Hlens1);
      [reflexivity|unfold len in *; lia|lia].
  - rewrite (set_cell_row_missing rx1 c r blankness); [reflexivity|].
    unfold len in *. lia.
Qed.

(** ** look, beyond the final check *)

Lemma look_run character lookwhere (x : StringGrid) :
  look character lookwhere x =
  (let? item := fst (find_grid_item character x) in
   let? ch0 := coordinate item in
   let? ch := walk ch0 lookwhere in
   if (fst ch <? 0) || (fst ch >? width x) || (snd ch <? 0) || (snd ch >? height x)
   then Ok OOB
   else let? c := fst (grab (fst ch) (snd ch) x) in Ok [c],
   x).
Proof.
  pose proof (find_grid_item_readonly character x) as Hro.
  unfold look. unfold bind at 1.
  destruct (find_grid_item character x) as [res x'].
  cbn [snd] in Hro. subst x'. cbn [fst].
  destruct res as [item|e]; [|reflexivity].
  unfold bind, lift, get. cbn [rbind].
  destruct (coordinate item) as [p|e]; [|reflexivity]. cbn [rbind].
  destruct (walk p lookwhere) as [ch|e]; [|reflexivity]. cbn [rbind].
  destruct (_ || _); [reflexivity|].
  rewrite grab_run. cbn [fst]. destruct (let? row := _ in _); reflexivity.
Qed.

Lemma udlr_dec (letter : char) : {udlr letter} + {~ udlr letter}.
Proof.
  unfold udlr.
  destruct (N.eq_dec letter 85%N); [left; tauto|].
  destruct (N.eq_dec letter 68%N); [left; tauto|].
  destruct (N.eq_dec letter 76%N); [left; tauto|].
  destruct (N.eq_dec letter 82%N); [left; tauto|].
  right. tauto.
Qed.

Lemma walk_cons_valid (ch : Z * Z) (letter : char) (rest : pystr) :
  udlr letter -> exists ch', walk ch (letter :: rest) = walk ch' rest.
Proof.
  intros [-> | [-> | [-> | ->]]]; eexists; reflexivity.
Qed.

Lemma walk_cons_invalid (ch : Z * Z) (letter : char) (rest : pystr) :
  ~ udlr letter -> walk ch (letter :: rest) = Raise ValueError.
Proof.
  unfold udlr. intros Hl. cbn [walk].
  destruct (N.eqb_spec letter 85%N); [tauto|].
  destruct (N.eqb_spec letter 68%N); [tauto|].
  destruct (N.eqb_spec letter 76%N); [tauto|].
  destruct (N.eqb_spec letter 82%N); [tauto|]. reflexivity.
Qed.

Lemma walk_invalid (path : pystr) :
  Exists (fun letter => ~ udlr letter) path ->
  forall ch, walk ch path = Raise ValueError.
Proof.
  induction path as [|letter rest IH]; intros Hex ch.
  - inversion Hex.
  - destruct (udlr_dec letter) as [Hl|Hl].
    + destruct (walk_cons_valid ch letter rest Hl) as [ch' ->].
      apply IH. inversion Hex; [contradiction|assumption].
    + apply walk_cons_invalid, Hl.
Qed.

Lemma path_valid_or_not (path : pystr) :
  Forall udlr path \/ Exists (fun letter => ~ udlr letter) path.
Proof.
  induction path as [|letter rest [IH|IH]].
  - left. constructor.
  - destruct (udlr_dec letter); [left; constructor; assumption|].
    right. constructor. assumption.
  - right. apply Exists_cons_tl, IH.
Qed.

(** X13.  A letter other than U, D, L and R anywhere in the path makes
    [look] raise [ValueError] once the target is located, wherever the letters
    before it lead and whatever follows; the grid is left as it was. *)
Theorem look_invalid_letter (x : StringGrid) (character : char) (lookwhere : pystr)
    (p : Z * Z) :
  find_grid_item character x = (Ok (Some p), x) ->
  Exists (fun letter => ~ udlr letter) lookwhere ->
  look character lookwhere x = (Raise ValueError, x).
Proof.
  intros Hfind Hex. rewrite look_run, Hfind. cbn [fst rbind coordinate].
  rewrite (walk_invalid _ Hex). reflexivity.
Qed.

Lemma walk_permutation (path1 path2 : pystr) (ch : Z * Z) :
  Permutation path1 path2 -> walk ch path1 = walk ch path2.
Proof.
  intros Hperm. destruct ch as [c r].
  destruct (path_valid_or_not path1) as [H1|H1].
  - assert (Forall udlr path2) as H2 by (rewrite <- Hperm; exact H1).
    rewrite (walk_destination _ H1), (walk_destination _ H2).
    unfold destination, occurrences.
    rewrite !(proj1 (Permutation_count_occ N.eq_dec path1 path2) Hperm).
    reflexivity.
  - assert (Exists (fun letter => ~ udlr letter) path2) as H2
      by (rewrite <- Hperm; exact H1).
    rewrite (walk_invalid _ H1), (walk_invalid _ H2). reflexivity.
Qed.

(** X14.  The result of [look] depends on how often each letter occurs in
    the path, not on their order: two paths that are rearrangements of each
    other give the same result, a value or an exception, on every grid. *)
Theorem look_ignores_letter_order (x : StringGrid) (character : char)
    (path1 path2 : pystr) :
  Permutation path1 path2 ->
  look character path1 x = look character path2 x.
Proof.
  intros Hperm. rewrite !look_run.
  destruct (fst (find_grid_item character x)) as [item|e]; [|reflexivity].
  cbn [rbind]. destruct (coordinate item) as [p|e]; [|reflexivity].
  cbn [rbind]. rewrite (walk_permutation _ _ p Hperm). reflexivity.
Qed.

(** X15.  A path that comes back to where it started returns the target
    itself.  On any grid object on which the target is located, a path of U,
    D, L and R letters with as many U as D and as many L as R makes [look]
    return the one-character text of the target, however far the path strays
    on the way; the empty path is the simplest case. *)
Theorem look_round_trip_path (x : StringGrid) (character : char) (lookwhere : pystr)
    (c r : Z) :
  find_grid_item character x = (Ok (Some (c, r)), x) ->
  Forall udlr lookwhere ->
  occurrences 85%N lookwhere = occurrences 68%N lookwhere ->
  occurrences 76%N lookwhere = occurrences 82%N lookwhere ->
  look character lookwhere x = (Ok [character], x).
Proof.
  intros Hfind Hpath Hud Hlr.
  destruct (find_in_rows_answer character _ x x c r Hfind) as (Hr & Hc & Hgrab).
  apply elem_of_py_range in Hr, Hc.
  rewrite look_run, Hfind. cbn [fst rbind coordinate].
  rewrite (walk_destination _ Hpath). cbn [rbind].
  assert (destination c r lookwhere = (c, r)) as ->
    by (unfold destination; f_equal; lia).
  cbn [fst snd].
  assert ((c <? 0) || (c >? width x) || (r <? 0) || (r >? height x) = false) as ->.
  { rewrite !orb_false_iff, !Z.ltb_ge. repeat split; try lia;
      apply Z.gtb_ltb, Z.ltb_ge; lia. }
  rewrite Hgrab. reflexivity.
Qed.

(** ** select, on each kind of sequence *)

Lemma recast_same (e : elem) : recast e e = Ok e.
Proof. destruct e; reflexivity. Qed.

Lemma picked_as_int (its : list elem) (flags : list flag) :
  picked its (as_int <$> flags) = picked its flags.
Proof.
  revert flags. induction its as [|item its IH]; intros [|f flags]; try reflexivity.
  cbn [fmap list_fmap picked as_int int_of_flag]. rewrite IH. reflexivity.
Qed.

Lemma as_int_twice (matches : list flag) :
  as_int <$> (as_int <$> matches) = as_int <$> matches.
Proof.
  induction matches as [|f matches IH]; [reflexivity|].
  cbn [fmap list_fmap]. f_equal. exact IH.
Qed.

Lemma restore_run (x : list elem) (n a : nat) (p : list elem) :
  (a + n <= length x)%nat ->
  (a + n <= length p)%nat ->
  restore x (combine (seq a n) (take n (drop a x))) p
  = Ok (take a p ++ take n (drop a x) ++ drop (a + n) p).
Proof.
  revert a p. induction n as [|n IH]; intros a p Hx Hp.
  - rewrite take_0. cbn [seq combine restore app]. rewrite Nat.add_0_r, take_drop. reflexivity.
  - destruct (lookup_lt_is_Some_2 x a) as [e He]; [lia|].
    rewrite (drop_S _ _ _ He), firstn_cons. cbn [seq combine restore].
    rewrite (py_getitem_inside x (Z.of_nat a) e) by (rewrite ?Nat2Z.id; auto with lia).
    cbn [rbind]. rewrite recast_same. cbn [rbind].
    unfold py_setitem. rewrite py_index_inside by (unfold len; lia).
    cbn [rbind]. rewrite Nat2Z.id.
    rewrite IH by (rewrite ?length_insert; lia).
    f_equal.
    rewrite (take_S_r (<[a:=e]> p) a e) by (apply list_lookup_insert_eq; lia).
    rewrite take_insert_ge by lia. rewrite drop_insert_lt by lia.
    rewrite <- app_assoc. cbn [app].
    replace (S a + n)%nat with (a + S n)%nat by lia. reflexivity.
Qed.

Lemma picked_nil_flags (its : list elem) : picked its [] = [].
Proof. destruct its; reflexivity. Qed.

(** X16.  On a list of integers, booleans and texts [select] does not return
    the selected items.  With as many flags as items, and [p] the text made
    of the [str] of each item whose flag is at least 1, it returns the first
    [len(p)] items of the list itself, selected or not, followed by the
    characters of [p] from position [len(x)] on, each as a one-character
    text.  (The items are limited to these three types because the loop
    rebuilds each item with [type(x[index])(item)], which such an item
    survives unchanged.) *)
Theorem select_list_returns_prefix (l : list elem) (matches : list flag) :
  length matches = length l ->
  let p := picked l matches in
  fst (select (SList l) matches)
  = Ok (Sequence (SList (take (length p) l ++ drop (length l) (chars p)))).
Proof.
  intros Hlen p.
  rewrite select_matched by exact Hlen. cbn [fst assembled items].
  rewrite picked_as_int. fold p. unfold enumerate.
  set (n := length (take (length (chars p)) l)).
  assert (length (chars p) = length p) as Hchars by apply length_map.
  assert (n = Nat.min (length p) (length l)) as Hn
    by (unfold n; rewrite length_take, Hchars; reflexivity).
  assert (take (length (chars p)) l = take n (drop 0 l)) as ->.
  { rewrite drop_0, Hchars, Hn. destruct (Nat.min_spec (length p) (length l))
      as [[Hlt ->]|[Hge ->]]; [reflexivity|].
    rewrite !take_ge by lia. reflexivity. }
  rewrite restore_run by lia. rewrite take_0, drop_0. cbn [rbind app].
  do 3 f_equal. rewrite Hn.
  destruct (Nat.min_spec (length p) (length l)) as [[Hlt ->]|[Hge ->]].
  - f_equal. rewrite !drop_ge by lia. reflexivity.
  - rewrite !take_ge by lia. reflexivity.
Qed.

(** X17.  On a tuple [select] works only when nothing is selected.  With as
    many flags as items it returns the empty tuple when no flag is at least 1
    (the text of the selected items is empty), and raises [TypeError] as soon
    as one item is selected, because it assigns into the tuple. *)
Theorem select_tuple_empty_or_raises (l : list elem) (matches : list flag) :
  length matches = length l ->
  fst (select (STuple l) matches)
  = if decide (picked l matches = []) then Ok (Sequence (STuple []))
    else Raise TypeError.
Proof.
  intros Hlen.
  rewrite select_matched by exact Hlen. cbn [fst assembled items].
  rewrite picked_as_int.
  destruct (decide (picked l matches = [])) as [->|Hne]; [reflexivity|].
  destruct (picked l matches) as [|c p] eqn:Ep; [contradiction|].
  destruct l as [|e l]; [discriminate|].
  cbn [chars map length]. rewrite firstn_cons.
  cbn [enumerate length seq combine restore_tuple].
  rewrite (py_getitem_inside (e :: l) (Z.of_nat 0) e) by (simpl; auto with lia).
  cbn [rbind]. rewrite recast_same. reflexivity.
Qed.

Lemma masked_sublist (s : pystr) (flags : list flag) : masked s flags `sublist_of` s.
Proof.
  revert flags. induction s as [|c s IH]; intros [|f flags];
    try apply sublist_nil_l.
  cbn [masked]. destruct (int_of_flag f >=? 1).
  - apply sublist_skip, IH.
  - apply sublist_cons, IH.
Qed.

Lemma masked_all (s : pystr) (flags : list flag) :
  length flags = length s ->
  Forall (fun f => 1 <= int_of_flag f) flags ->
  masked s flags = s.
Proof.
  intros Hlen Hall. revert s Hlen.
  induction Hall as [|f flags Hf _ IH]; intros [|c s] Hlen; try discriminate;
    [reflexivity|].
  cbn [masked]. destruct (Z.geb_spec (int_of_flag f) 1); [|lia].
  rewrite IH by (simpl in Hlen; lia). reflexivity.
Qed.

Lemma masked_none (s : pystr) (flags : list flag) :
  Forall (fun f => int_of_flag f < 1) flags ->
  masked s flags = [].
Proof.
  intros Hall. revert s.
  induction Hall as [|f flags Hf _ IH]; intros [|c s]; try reflexivity.
  cbn [masked]. destruct (Z.geb_spec (int_of_flag f) 1); [lia|apply IH].
Qed.

(** X18.  On a text [select] only drops characters.  With as many flags as
    characters the text returned is the text given with some characters left
    out and the others in their order; it is the whole text when every flag
    is at least 1 and the empty text when no flag is. *)
Theorem select_text_drops_characters (s : pystr) (matches : list flag) :
  length matches = length s ->
  exists t,
    fst (select (SStr s) matches) = Ok (Sequence (SStr t))
    /\ t `sublist_of` s
    /\ (Forall (fun f => 1 <= int_of_flag f) matches -> t = s)
    /\ (Forall (fun f => int_of_flag f < 1) matches -> t = []).
Proof.
  intros Hlen. exists (masked s matches). split; [|split; [|split]].
  - rewrite select_matched by (cbn [items]; rewrite length_map; exact Hlen).
    cbn [fst assembled items]. fold (chars s).
    rewrite picked_chars, masked_as_int. reflexivity.
  - apply masked_sublist.
  - apply masked_all, Hlen.
  - apply masked_none.
Qed.

(** X19.  The overwriting of the mask settles after one call: a second call
    of [select] with the same sequence and the mask the first call left
    behind returns what the first call returned, and leaves that mask as it
    is. *)
Theorem select_second_call_stable (x : pyseq) (matches : list flag) :
  let matches' := snd (select x matches) in
  fst (select x matches') = fst (select x matches)
  /\ snd (select x matches') = matches'.
Proof.
  destruct (decide (length matches = length (items x))) as [Hlen|Hlen].
  - rewrite (select_matched x matches Hlen). cbn [fst snd].
    rewrite select_matched by (rewrite length_fmap; exact Hlen).
    rewrite as_int_twice. split; reflexivity.
  - rewrite (select_mismatched x matches Hlen). cbn [fst snd].
    rewrite (select_mismatched x matches Hlen). split; reflexivity.
Qed.

(** ** joint *)

Lemma join_texts_chars (s : pystr) : join_texts (chars s) = Ok s.
Proof.
  induction s as [|c s IH]; [reflexivity|].
  cbn [chars map join_texts]. fold (chars s). rewrite IH. reflexivity.
Qed.

Lemma join_texts_app (a b : list elem) :
  join_texts (a ++ b)
  = let? s := join_texts a in let? t := join_texts b in Ok (s ++ t).
Proof.
  induction a as [|e a IH].
  - cbn [app join_texts rbind]. destruct (join_texts b); reflexivity.
  - destruct e as [z|z|s0]; try reflexivity.
    cbn [app join_texts]. rewrite IH.
    destruct (join_texts a) as [s|]; [|reflexivity]. cbn [rbind].
    destruct (join_texts b) as [t|]; [|reflexivity]. cbn [rbind].
    rewrite app_assoc. reflexivity.
Qed.

Lemma join_texts_all (l : list elem) :
  Forall (fun e => exists s, e = EStr s) l ->
  join_texts l = Ok (concat (str_of_elem <$> l)).
Proof.
  induction 1 as [|e l [s ->] _ IH]; [reflexivity|].
  cbn [join_texts fmap list_fmap concat str_of_elem]. rewrite IH. reflexivity.
Qed.

Lemma join_texts_not_all (l : list elem) :
  Exists (fun e => forall s, e <> EStr s) l ->
  join_texts l = Raise TypeError.
Proof.
  induction 1 as [e l He|e l _ IH].
  - destruct e as [z|z|s]; try reflexivity. exfalso. exact (He s eq_refl).
  - destruct e as [z|z|s]; try reflexivity.
    cbn [join_texts]. rewrite IH. reflexivity.
Qed.

Lemma joint_text_run (s : pystr) (x2 : pyseq) :
  joint (SStr s) x2 = let? t := join_texts (items x2) in Ok (SStr (s ++ t)).
Proof.
  unfold joint. change (items (SStr s)) with (chars s).
  rewrite join_texts_app, join_texts_chars. cbn [rbind].
  destruct (join_texts (items x2)); reflexivity.
Qed.

Lemma joint_follows_text_text (s t : pystr) :
  joint (SStr s) (SStr t) = Ok (SStr (s ++ t)).
Proof.
  rewrite joint_text_run. change (items (SStr t)) with (chars t).
  rewrite join_texts_chars. reflexivity.
Qed.

(** X20.  [joint] gives its result the kind of its first argument.  A list
    or a tuple first gives a list or a tuple of the items of both, in order,
    and never raises.  A text first gives the text followed by the texts the
    second argument holds, so two texts give their concatenation; if the
    second argument holds an item that is not a text, it raises [TypeError]. *)
Theorem joint_follows_first_argument (x2 : pyseq) :
  (forall l, joint (SList l) x2 = Ok (SList (l ++ items x2)))
  /\ (forall l, joint (STuple l) x2 = Ok (STuple (l ++ items x2)))
  /\ (forall s t, joint (SStr s) (SStr t) = Ok (SStr (s ++ t)))
  /\ (forall s,
         Forall (fun e => exists t, e = EStr t) (items x2) ->
         joint (SStr s) x2 = Ok (SStr (s ++ concat (str_of_elem <$> items x2))))
  /\ (forall s,
         Exists (fun e => forall t, e <> EStr t) (items x2) ->
         joint (SStr s) x2 = Raise TypeError).
Proof.
  split; [reflexivity|]. split; [reflexivity|]. split; [|split].
  - apply joint_follows_text_text.
  - intros s Hall. rewrite joint_text_run, (join_texts_all _ Hall). reflexivity.
  - intros s Hex. rewrite joint_text_run, (join_texts_not_all _ Hex). reflexivity.
Qed.

Lemma joint_items (y z yz : pyseq) :
  (forall a, y <> SStr a) \/ (exists b, z = SStr b) ->
  joint y z = Ok yz ->
  items yz = items y ++ items z.
Proof.
  intros Hcase. destruct y as [a|l|l].
  - destruct Hcase as [Hy|[b ->]]; [exfalso; exact (Hy a eq_refl)|].
    rewrite joint_follows_text_text. intros [= <-]. cbn [items]. apply map_app.
  - intros [= <-]. reflexivity.
  - intros [= <-]. reflexivity.
Qed.

(** X21.  Joining three sequences does not depend on the grouping, a raised
    [TypeError] included, as long as the middle one is a list or a tuple or
    the last one is a text.  (A text in the middle is joined with the texts
    of the last argument into one text, whose items are then its single
    characters.) *)
Theorem joint_associative (x y z : pyseq) :
  (forall a, y <> SStr a) \/ (exists b, z = SStr b) ->
  (let? xy := joint x y in joint xy z) = (let? yz := joint y z in joint x yz).
Proof.
  intros Hcase.
  assert (exists yz, joint y z = Ok yz) as [yz Hyz].
  { destruct y as [a|l|l]; [|eexists; reflexivity|eexists; reflexivity].
    destruct Hcase as [Hy|[b ->]]; [exfalso; exact (Hy a eq_refl)|].
    eexists. apply joint_follows_text_text. }
  rewrite Hyz. cbn [rbind].
  pose proof (joint_items y z yz Hcase Hyz) as Hitems.
  destruct x as [s|l|l].
  - rewrite !joint_text_run, Hitems, join_texts_app.
    destruct (join_texts (items y)) as [ty|e]; [|reflexivity]. cbn [rbind].
    rewrite joint_text_run.
    destruct (join_texts (items z)) as [tz|e]; [|reflexivity]. cbn [rbind].
    rewrite app_assoc. reflexivity.
  - unfold joint. cbn [rbind items]. rewrite Hitems, app_assoc. reflexivity.
  - unfold joint. cbn [rbind items]. rewrite Hitems, app_assoc. reflexivity.
Qed.

(** ** listmap *)

Lemma listmap_loop_ok {A B} (f : A -> result B) (args : list A) (r rs : list B) :
  listmap_loop f args r = Ok rs <->
  exists rs', rs = r ++ rs' /\ Forall2 (fun a v => f a = Ok v) args rs'.
Proof.
  revert r. induction args as [|a args IH]; intros r.
  - cbn [listmap_loop]. split.
    + intros [= <-]. exists []. rewrite app_nil_r. split; [reflexivity|constructor].
    + intros (rs' & -> & Hall). inversion Hall. rewrite app_nil_r. reflexivity.
  - cbn [listmap_loop]. destruct (f a) as [v|e] eqn:E; cbn [rbind].
    + rewrite IH. split.
      * intros (rs' & -> & Hall). exists (v :: rs').
        rewrite <- app_assoc. split; [reflexivity|]. constructor; assumption.
      * intros (rs' & -> & Hall). inversion Hall as [|? v' ? rs'' Hv Hrest]; subst.
        assert (v' = v) as -> by congruence.
        exists rs''. rewrite <- app_assoc. split; [reflexivity|assumption].
    + split; [discriminate|].
      intros (rs' & _ & Hall). inversion Hall; subst. congruence.
Qed.

Lemma listmap_loop_raises {A B} (f : A -> result B) (before : list A) (a : A)
    (after : list A) (e : exn) (r : list B) :
  Forall (fun a => exists v, f a = Ok v) before ->
  f a = Raise e ->
  listmap_loop f (before ++ a :: after) r = Raise e.
Proof.
  intros Hbefore Ha. revert r.
  induction Hbefore as [|b before [v Hv] _ IH]; intros r.
  - cbn [app listmap_loop]. rewrite Ha. reflexivity.
  - cbn [app listmap_loop]. rewrite Hv. cbn [rbind]. apply IH.
Qed.

(** X22.  [listmap] returns a list exactly when every call returns, and the
    list then holds the result of each call, in the order of the argument
    tuples and as many as there are.  When a call raises, [listmap] raises
    the exception of the first call that does, and the tuples after it are
    not what decides. *)
Theorem listmap_results_in_order {A B} (f : A -> result B) (args : list A) :
  (forall rs,
      listmap f args = Ok rs <-> Forall2 (fun a v => f a = Ok v) args rs)
  /\ (forall rs, listmap f args = Ok rs -> length rs = length args)
  /\ (forall before a after e,
         args = before ++ a :: after ->
         Forall (fun a => exists v, f a = Ok v) before ->
         f a = Raise e ->
         listmap f args = Raise e).
Proof.
  assert (forall rs,
             listmap f args = Ok rs <-> Forall2 (fun a v => f a = Ok v) args rs)
    as Hok.
  { intros rs. unfold listmap. rewrite listmap_loop_ok. split.
    - intros (rs' & -> & Hall). exact Hall.
    - intros Hall. exists rs. split; [reflexivity|exact Hall]. }
  split; [exact Hok|]. split.
  - intros rs Hrs. apply Hok in Hrs. symmetry. exact (Forall2_length _ _ _ Hrs).
  - intros before a after e -> Hbefore Ha. apply listmap_loop_raises; assumption.
Qed.

(** ** zip_iterables *)

Lemma collect_step {G A} (step : G -> result (option A) * G) (fuel : nat) (g h : G) :
  step g = step h -> collect step fuel g = collect step fuel h.
Proof. intros E. destruct fuel; [reflexivity|]. cbn [collect]. rewrite E. reflexivity. Qed.

Lemma zip_loop_collect {A B} (iter1 : list A) (iter2 : list B) (n a fuel : nat) :
  (a + n <= length iter1)%nat ->
  (a + n <= length iter2)%nat ->
  (n < fuel)%nat ->
  collect zip_next fuel (ZipLoop iter1 iter2 (Z.of_nat <$> seq a n))
  = Some (Ok (combine (take n (drop a iter1)) (take n (drop a iter2))), ZipFinished).
Proof.
  revert a fuel. induction n as [|n IH]; intros a fuel H1 H2 Hfuel.
  - destruct fuel; [lia|]. rewrite !take_0. reflexivity.
  - destruct fuel as [|fuel]; [lia|].
    destruct (lookup_lt_is_Some_2 iter1 a) as [x1 Hx1]; [lia|].
    destruct (lookup_lt_is_Some_2 iter2 a) as [x2 Hx2]; [lia|].
    change (Z.of_nat <$> seq a (S n))
      with (Z.of_nat a :: (Z.of_nat <$> seq (S a) n)).
    cbn [collect zip_next zip_turn].
    rewrite (py_getitem_inside iter1 (Z.of_nat a) x1)
      by (rewrite ?Nat2Z.id; auto with lia).
    cbn [rbind].
    rewrite (py_getitem_inside iter2 (Z.of_nat a) x2)
      by (rewrite ?Nat2Z.id; auto with lia).
    cbn [rbind]. rewrite IH by lia.
    rewrite (drop_S _ _ _ Hx1), (drop_S _ _ _ Hx2), !firstn_cons. reflexivity.
Qed.

Lemma combine_lookup {A B} (l1 : list A) (l2 : list B) (i : nat) (a : A) (b : B) :
  combine l1 l2 !! i = Some (a, b) <-> l1 !! i = Some a /\ l2 !! i = Some b.
Proof.
  revert l2 i. induction l1 as [|x1 l1 IH]; intros [|x2 l2] i.
  - cbn. split; [discriminate|intros [? _]; discriminate].
  - cbn. split; [discriminate|intros [? _]; discriminate].
  - cbn [combine]. split; [discriminate|]. intros [_ H2].
    rewrite lookup_nil in H2. discriminate.
  - cbn [combine]. destruct i as [|i].
    + cbn. split; [intros [= -> ->]; auto|intros [[= ->] [= ->]]; reflexivity].
    + cbn [lookup list_lookup]. apply IH.
Qed.

(** X23.  Drained with enough fuel, the generator of [zip_iterables] yields
    the pairs of the items at equal positions, in order, as many as the
    shorter sequence has items, and nothing of what the longer one holds
    beyond that.  It never raises, and once finished it yields nothing more. *)
Theorem zip_iterables_pairs {A B} (iter1 : list A) (iter2 : list B) (fuel : nat) :
  (Nat.min (length iter1) (length iter2) < fuel)%nat ->
  collect zip_next fuel (zip_iterables iter1 iter2)
  = Some (Ok (combine iter1 iter2), ZipFinished)
  /\ length (combine iter1 iter2) = Nat.min (length iter1) (length iter2)
  /\ (forall i a b,
         combine iter1 iter2 !! i = Some (a, b) <->
         iter1 !! i = Some a /\ iter2 !! i = Some b)
  /\ zip_next (@ZipFinished A B) = (Ok None, ZipFinished).
Proof.
  intros Hfuel.
  set (n := Nat.min (length iter1) (length iter2)) in *.
  split; [|split; [apply length_combine|split; [|reflexivity]]].
  - unfold zip_iterables.
    rewrite (collect_step zip_next fuel _
               (ZipLoop iter1 iter2 (Z.of_nat <$> seq 0 n))).
    + rewrite zip_loop_collect by (unfold n; lia).
      rewrite !drop_0, <- combine_firstn.
      rewrite take_ge by (rewrite length_combine; unfold n; lia). reflexivity.
    + cbn [zip_next]. unfold py_range, len.
      replace (Z.to_nat (Z.min (Z.of_nat (length iter1)) (Z.of_nat (length iter2))))
        with n by (unfold n; lia).
      reflexivity.
  - intros i a b. apply combine_lookup.
Qed.

(** ** unique *)

Section UniqueProperties.
Context {A : Type} `{Countable A}.

Lemma fresh_items_elem (l : list A) (seen : gset A) (a : A) :
  a ∈ fresh_items l seen <-> a ∈ l /\ a ∉ seen.
Proof.
  revert seen. induction l as [|item l IH]; intros seen.
  - cbn [fresh_items]. set_solver.
  - cbn [fresh_items]. destruct (decide (item ∈ seen)) as [Hin|Hout].
    + rewrite IH. set_solver.
    + rewrite elem_of_cons, IH, elem_of_cons, elem_of_union, elem_of_singleton.
      destruct (decide (a = item)) as [Heq|Hne]; [rewrite Heq|]; naive_solver.
Qed.

Lemma fresh_items_NoDup (l : list A) (seen : gset A) : NoDup (fresh_items l seen).
Proof.
  revert seen. induction l as [|item l IH]; intros seen; [constructor|].
  cbn [fresh_items]. destruct (decide (item ∈ seen)); [apply IH|].
  apply NoDup_cons. split; [|apply IH].
  rewrite fresh_items_elem. set_solver.
Qed.

Lemma fresh_items_sublist (l : list A) (seen : gset A) :
  fresh_items l seen `sublist_of` l.
Proof.
  revert seen. induction l as [|item l IH]; intros seen; [constructor|].
  cbn [fresh_items]. destruct (decide (item ∈ seen)).
  - apply sublist_cons, IH.
  - apply sublist_skip, IH.
Qed.

Lemma fresh_items_app (l1 l2 : list A) (seen : gset A) :
  fresh_items (l1 ++ l2) seen
  = fresh_items l1 seen ++ fresh_items l2 (list_to_set l1 ∪ seen).
Proof.
  revert seen. induction l1 as [|item l1 IH]; intros seen.
  - cbn [app fresh_items list_to_set]. f_equal. set_solver.
  - cbn [app fresh_items list_to_set].
    destruct (decide (item ∈ seen)) as [Hin|Hout].
    + rewrite IH. do 2 f_equal. set_solver.
    + rewrite IH. cbn [app]. do 3 f_equal. set_solver.
Qed.

Lemma fresh_items_same (l : list A) (seen : gset A) :
  NoDup l -> (forall a, a ∈ l -> a ∉ seen) -> fresh_items l seen = l.
Proof.
  intros Hnd. revert seen. induction Hnd as [|item l Hnotin _ IH]; intros seen Hseen;
    [reflexivity|].
  cbn [fresh_items]. destruct (decide (item ∈ seen)) as [Hin|_].
  - exfalso. apply (Hseen item); [left|exact Hin].
  - f_equal. apply IH. intros a Ha. specialize (Hseen a (list_elem_of_further _ _ _ Ha)).
    set_solver.
Qed.

Lemma unique_collect (rest : list A) (seen : gset A) (g : unique_generator)
    (fuel : nat) :
  unique_next g = unique_scan rest seen ->
  (length rest < fuel)%nat ->
  collect unique_next fuel g = Some (Ok (fresh_items rest seen), UniqueFinished).
Proof.
  revert seen g fuel. induction rest as [|item rest IH]; intros seen g fuel Hg Hfuel.
  - destruct fuel; [lia|]. cbn [collect]. rewrite Hg. reflexivity.
  - cbn [unique_scan fresh_items] in *.
    destruct (decide (item ∈ seen)).
    + apply IH; [exact Hg|simpl in Hfuel; lia].
    + destruct fuel as [|fuel]; [lia|]. cbn [collect]. rewrite Hg.
      rewrite (IH ({[item]} ∪ seen) (UniqueYielded item rest seen) fuel);
        [reflexivity|reflexivity|simpl in Hfuel; lia].
Qed.

(** X24.  Drained with enough fuel, the generator of [unique] yields every
    distinct item once, at its first occurrence: the items yielded have no
    duplicates, are exactly the items that occur, and are the items given
    with the repetitions left out and the order kept; and what a longer input
    yields starts with what its beginning yields. *)
Theorem unique_first_occurrences (iterable : list A) (fuel : nat) :
  (length iterable < fuel)%nat ->
  exists yielded,
    collect unique_next fuel (unique iterable) = Some (Ok yielded, UniqueFinished)
    /\ NoDup yielded
    /\ (forall a, a ∈ yielded <-> a ∈ iterable)
    /\ yielded `sublist_of` iterable
    /\ (forall l1 l2, iterable = l1 ++ l2 ->
          exists y1,
            collect unique_next fuel (unique l1) = Some (Ok y1, UniqueFinished)
            /\ y1 `prefix_of` yielded).
Proof.
  intros Hfuel. exists (fresh_items iterable ∅).
  split; [apply unique_collect; [reflexivity|exact Hfuel]|].
  split; [apply fresh_items_NoDup|].
  split; [intros a; rewrite fresh_items_elem; set_solver|].
  split; [apply fresh_items_sublist|].
  intros l1 l2 ->. exists (fresh_items l1 ∅). split.
  - apply unique_collect; [reflexivity|]. rewrite length_app in Hfuel. lia.
  - rewrite fresh_items_app. eexists. reflexivity.
Qed.

(** X25.  [unique] changes nothing that is already free of duplicates, so
    applying it to its own output yields that output again: drained, the
    generator over the items a first pass yielded yields the same items, and
    over an input without duplicates it yields the input. *)
Theorem unique_idempotent (iterable : list A) (fuel : nat) :
  (length iterable < fuel)%nat ->
  exists yielded,
    collect unique_next fuel (unique iterable) = Some (Ok yielded, UniqueFinished)
    /\ collect unique_next fuel (unique yielded) = Some (Ok yielded, UniqueFinished)
    /\ (NoDup iterable -> yielded = iterable).
Proof.
  intros Hfuel. exists (fresh_items iterable ∅).
  split; [apply unique_collect; [reflexivity|exact Hfuel]|]. split.
  - rewrite (unique_collect (fresh_items iterable ∅) ∅ _ fuel).
    + rewrite (fresh_items_same _ ∅ (fresh_items_NoDup iterable ∅)); [reflexivity|].
      set_solver.
    + reflexivity.
    + pose proof (sublist_length _ _ (fresh_items_sublist iterable ∅)). lia.
  - intros Hnd. apply fresh_items_same; [exact Hnd|set_solver].
Qed.
End UniqueProperties.

(** ** partition *)

Lemma partition_loop_run {A} (condition : A -> bool) (l t f : list A) :
  partition_loop condition l t f
  = (t ++ List.filter condition l,
     f ++ List.filter (fun a => negb (condition a)) l).
Proof.
  revert t f. induction l as [|a l IH]; intros t f.
  - cbn [partition_loop List.filter]. rewrite !app_nil_r. reflexivity.
  - cbn [partition_loop List.filter]. destruct (condition a); cbn [negb];
      rewrite IH, <- app_assoc; reflexivity.
Qed.

Lemma filter_split_permutation {A} (condition : A -> bool) (l : list A) :
  Permutation
    (List.filter condition l ++ List.filter (fun a => negb (condition a)) l) l.
Proof.
  induction l as [|a l IH]; [constructor|].
  cbn [List.filter]. destruct (condition a); cbn [negb app].
  - constructor. exact IH.
  - rewrite <- Permutation_middle. constructor. exact IH.
Qed.

(** X26.  [partition] sorts every item into exactly one of its two lists: the
    first holds the items that satisfy the condition and the second those
    that do not, each in the order of the input; together they are a
    rearrangement of the input, so no item is lost or doubled. *)
Theorem partition_splits_input {A} (condition : A -> bool) (iterable : list A) :
  let true_part := fst (partition condition iterable) in
  let false_part := snd (partition condition iterable) in
  true_part = List.filter condition iterable
  /\ false_part = List.filter (fun a => negb (condition a)) iterable
  /\ Permutation (true_part ++ false_part) iterable
  /\ (length true_part + length false_part = length iterable)%nat
  /\ true_part `sublist_of` iterable
  /\ false_part `sublist_of` iterable.
Proof.
  unfold partition. rewrite partition_loop_run. cbn [fst snd app].
  pose proof (filter_split_permutation condition iterable) as Hperm.
  split; [reflexivity|]. split; [reflexivity|]. split; [exact Hperm|].
  split; [rewrite <- length_app; apply Permutation_length, Hperm|].
  assert (forall (c : A -> bool) (l : list A), List.filter c l `sublist_of` l) as Hsub.
  { intros c l. induction l as [|a l IH]; [constructor|].
    cbn [List.filter]. destruct (c a); [apply sublist_skip|apply sublist_cons]; exact IH. }
  split; apply Hsub.
Qed.

Lemma filter_longest_prefix {A} (condition : A -> bool) (l : list A) :
  List.filter condition l
  = longest_prefix condition l
    ++ List.filter condition (drop (length (longest_prefix condition l)) l).
Proof.
  induction l as [|a l IH]; [reflexivity|].
  cbn [longest_prefix]. destruct (condition a) eqn:E.
  - cbn [List.filter length app]. rewrite E, skipn_cons. f_equal. exact IH.
  - rewrite drop_0. reflexivity.
Qed.

Lemma filter_negb_nil {A} (condition : A -> bool) (l : list A) :
  List.filter (fun a => negb (condition a)) l = [] <-> longest_prefix condition l = l.
Proof.
  induction l as [|a l IH]; [split; reflexivity|].
  cbn [List.filter longest_prefix]. destruct (condition a); cbn [negb].
  - rewrite IH. split; [intros ->; reflexivity|intros [= E]; exact E].
  - split; discriminate.
Qed.

(** X27.  [take_while] and [partition] agree on the beginning: with the same
    condition, the items [take_while] yields are the beginning of the first
    list of [partition], and the second list of [partition] is empty exactly
    when [take_while] yields every item. *)
Theorem take_while_within_partition {A} (condition : A -> bool)
    (iterable : list A) (fuel : nat) :
  (length iterable < fuel)%nat ->
  exists yielded,
    drain condition fuel (take_while iterable) = Some (yielded, Finished)
    /\ yielded `prefix_of` fst (partition condition iterable)
    /\ (snd (partition condition iterable) = [] <-> yielded = iterable).
Proof.
  intros Hfuel. exists (longest_prefix condition iterable).
  split; [apply drain_prefix, Hfuel|].
  unfold partition. rewrite partition_loop_run. cbn [fst snd app]. split.
  - rewrite filter_longest_prefix. eexists. reflexivity.
  - apply filter_negb_nil.
Qed.

(** * The further properties at concrete inputs *)

Lemma StringGrid_init_needs_text_witness :
  grid_top_right <> []
  /\ exists x row0,
       StringGrid_init grid_top_right = Ok x
       /\ grid x = grid_top_right
       /\ rows x !! 0%nat = Some row0
       /\ width x = len row0
       /\ height x = len (rows x)
       /\ 1 <= height x.
Proof.
  split; [discriminate|].
  destruct (StringGrid_init_needs_text grid_top_right) as [_ H].
  apply H. discriminate.
Defined.

Lemma grab_never_line_boundary_witness :
  grab 1 0 top_right = (Ok 88%N, top_right) /\ is_linebreak 88%N = false.
Proof.
  split; [reflexivity|].
  apply (grab_never_line_boundary top_right top_right 1 0 88%N). reflexivity.
Defined.

Lemma find_grid_item_answer_grabs_witness :
  find_grid_item 88%N top_right = (Ok (Some (1, 0)), top_right)
  /\ top_right = top_right
  /\ inside top_right 1 0
  /\ grab 1 0 top_right = (Ok 88%N, top_right).
Proof.
  split; [reflexivity|].
  apply (find_grid_item_answer_grabs top_right top_right 88%N 1 0). reflexivity.
Defined.

Lemma make_grid_builds_grid_witness :
  1 <= 3 /\ txt "." <> [] /\ Forall plain (txt ".")
  /\ exists x,
       StringGrid_init (make_grid 3 3 (txt ".")) = Ok x
       /\ height x = 3
       /\ width x = 3 * len (txt ".")
       /\ rectangular x
       /\ rows x = replicate (Z.to_nat 3) (py_repeat_text (txt ".") 3)
       /\ (forall col row, inside x col row ->
             exists c, cell x col row = Some c /\ c ∈ txt ".").
Proof.
  assert (Forall plain (txt ".")) as Hplain by (repeat constructor).
  split; [lia|]. split; [discriminate|]. split; [exact Hplain|].
  apply (make_grid_builds_grid 3 3 (txt ".")); [lia|lia|discriminate|exact Hplain].
Defined.

Lemma make_grid_without_columns_witness :
  (0 <= 0 \/ txt "." = [])
  /\ exists x,
       StringGrid_init (make_grid 3 0 (txt ".")) = Ok x
       /\ width x = 0
       /\ height x = 3 - 1.
Proof.
  split; [left; lia|].
  destruct (make_grid_without_columns 3 0 (txt ".")) as (_ & _ & H); [left; lia|].
  apply H. lia.
Defined.

Lemma StringGrid_init_trailing_line_feed_witness :
  last grid_top_right = Some 46%N
  /\ plain 46%N
  /\ StringGrid_init grid_top_right = Ok top_right
  /\ exists x2,
       StringGrid_init (grid_top_right ++ [LF]) = Ok x2
       /\ rows x2 = rows top_right
       /\ width x2 = width top_right
       /\ height x2 = height top_right.
Proof.
  split; [reflexivity|]. split; [reflexivity|]. split; [reflexivity|].
  apply (StringGrid_init_trailing_line_feed grid_top_right 46%N top_right);
    reflexivity.
Defined.

Lemma swipe_on_diagonal_moves_witness :
  StringGrid_init grid_top_left = Ok top_left
  /\ find_grid_item 88%N top_left = (Ok (Some (0, 0)), top_left)
  /\ out_of_bounds top_left (0 + snd (step Right)) (0 + fst (step Right)) = false
  /\ exists rx,
       swipe 88%N (txt "right") 46%N top_left = (Ok (py_join [LF] rx), top_left)
       /\ cell_of rx (0 + fst (step Right)) (0 + snd (step Right)) = Some 88%N
       /\ cell_of rx 0 0 = Some 46%N
       /\ forall c' r', 0 <= c' -> 0 <= r' ->
            (c', r') <> (0, 0) ->
            (c', r') <> (0 + fst (step Right), 0 + snd (step Right)) ->
            cell_of rx c' r' = cell top_left c' r'.
Proof.
  split; [reflexivity|]. split; [reflexivity|]. split; [reflexivity|].
  apply (swipe_on_diagonal_moves grid_top_left top_left 88%N (txt "right") 46%N
           Right 0);
    [reflexivity | repeat constructor | reflexivity | reflexivity | reflexivity].
Defined.

Lemma swipe_key_and_type_errors_witness :
  StringGrid_init grid_top_right = Ok top_right
  /\ (forall d, lower (txt "north") <> keyword d)
  /\ swipe 89%N (txt "north") 46%N top_right = (Raise KeyError, top_right).
Proof.
  assert (forall d, lower (txt "north") <> keyword d) as Hd
    by (intros d; destruct d; discriminate).
  split; [reflexivity|]. split; [exact Hd|].
  destruct (swipe_key_and_type_errors grid_top_right top_right 89%N (txt "north") 46%N)
    as [H _]; [reflexivity | repeat constructor |].
  apply H. exact Hd.
Defined.

Lemma swipe_ignores_letter_case_witness :
  lower (txt "LEFT") = lower (txt "Left")
  /\ swipe 88%N (txt "LEFT") 46%N top_right = swipe 88%N (txt "Left") 46%N top_right
  /\ swipe 88%N (lower (txt "LEFT")) 46%N top_right
     = swipe 88%N (txt "LEFT") 46%N top_right.
Proof.
  split; [reflexivity|].
  apply (swipe_ignores_letter_case top_right 88%N (txt "LEFT") (txt "Left") 46%N).
  reflexivity.
Defined.

Lemma swipe_square_grid_returns_witness :
  StringGrid_init grid_top_right = Ok top_right
  /\ width top_right = height top_right
  /\ occurs 88%N top_right
  /\ exists t, swipe 88%N (txt "up") 46%N top_right = (Ok t, top_right).
Proof.
  assert (occurs 88%N top_right) as Hocc.
  { exists [46; 88]%N. split.
    - apply (list_elem_of_lookup_2 _ 0%nat). reflexivity.
    - apply (list_elem_of_lookup_2 _ 1%nat). reflexivity. }
  split; [reflexivity|]. split; [reflexivity|]. split; [exact Hocc|].
  apply (swipe_square_grid_returns grid_top_right top_right 88%N (txt "up") 46%N Up);
    [reflexivity | repeat constructor | reflexivity | exact Hocc | reflexivity].
Defined.

Lemma swipe_index_error_off_square_witness :
  StringGrid_init grid_tall = Ok tall
  /\ rectangular tall
  /\ find_grid_item 88%N tall = (Ok (Some (0, 2)), tall)
  /\ (2 = width tall /\ 0 < height tall)
  /\ out_of_bounds tall (0 + snd (step Left)) (2 + fst (step Left)) = false
  /\ swipe 88%N (txt "left") 46%N tall = (Raise IndexError, tall).
Proof.
  split; [reflexivity|]. split; [repeat constructor|]. split; [reflexivity|].
  split; [split; [reflexivity|cbn; lia]|].
  apply (swipe_index_error_off_square grid_tall tall 88%N (txt "left") 46%N Left 0 2);
    [reflexivity | repeat constructor | reflexivity | reflexivity |].
  left. split; [reflexivity|]. split; [reflexivity|cbn; lia].
Defined.

Lemma look_invalid_letter_witness :
  find_grid_item 88%N top_right = (Ok (Some (1, 0)), top_right)
  /\ Exists (fun letter => ~ udlr letter) (txt "RRz")
  /\ look 88%N (txt "RRz") top_right = (Raise ValueError, top_right).
Proof.
  assert (Exists (fun letter => ~ udlr letter) (txt "RRz")) as Hex.
  { apply Exists_cons_tl, Exists_cons_tl, Exists_cons_hd.
    unfold udlr. intros [E|[E|[E|E]]]; discriminate E. }
  split; [reflexivity|]. split; [exact Hex|].
  apply (look_invalid_letter top_right 88%N (txt "RRz") (1, 0)); [reflexivity|exact Hex].
Defined.

Lemma look_ignores_letter_order_witness :
  Permutation (txt "LD") (txt "DL")
  /\ look 88%N (txt "LD") top_right = look 88%N (txt "DL") top_right.
Proof.
  assert (Permutation (txt "LD") (txt "DL")) as Hperm by apply perm_swap.
  split; [exact Hperm|].
  apply (look_ignores_letter_order top_right 88%N (txt "LD") (txt "DL")). exact Hperm.
Defined.

Lemma look_round_trip_path_witness :
  find_grid_item 88%N top_right = (Ok (Some (1, 0)), top_right)
  /\ Forall udlr (txt "URDL")
  /\ look 88%N (txt "URDL") top_right = (Ok [88%N], top_right).
Proof.
  assert (Forall udlr (txt "URDL")) as Hpath
    by (repeat constructor; unfold udlr; repeat first [left; reflexivity | right]).
  split; [reflexivity|]. split; [exact Hpath|].
  apply (look_round_trip_path top_right 88%N (txt "URDL") 1 0);
    [reflexivity | exact Hpath | reflexivity | reflexivity].
Defined.

Lemma select_list_returns_prefix_witness :
  length [FInt 0; FInt 1] = length [EInt 10; EInt 20]
  /\ fst (select (SList [EInt 10; EInt 20]) [FInt 0; FInt 1])
     = Ok (Sequence (SList [EInt 10; EInt 20])).
Proof.
  split; [reflexivity|].
  exact (select_list_returns_prefix [EInt 10; EInt 20] [FInt 0; FInt 1] eq_refl).
Defined.

Lemma select_tuple_empty_or_raises_witness :
  length [FInt 0; FInt 1] = length [EInt 10; EInt 20]
  /\ fst (select (STuple [EInt 10; EInt 20]) [FInt 0; FInt 1]) = Raise TypeError.
Proof.
  split; [reflexivity|].
  exact (select_tuple_empty_or_raises [EInt 10; EInt 20] [FInt 0; FInt 1] eq_refl).
Defined.

Lemma select_text_drops_characters_witness :
  length [FInt 1; FInt 0; FInt 1; FInt 0] = length (txt "abcd")
  /\ exists t,
       fst (select (SStr (txt "abcd")) [FInt 1; FInt 0; FInt 1; FInt 0])
       = Ok (Sequence (SStr t))
       /\ t `sublist_of` txt "abcd"
       /\ (Forall (fun f => 1 <= int_of_flag f) [FInt 1; FInt 0; FInt 1; FInt 0] ->
           t = txt "abcd")
       /\ (Forall (fun f => int_of_flag f < 1) [FInt 1; FInt 0; FInt 1; FInt 0] ->
           t = []).
Proof.
  split; [reflexivity|].
  apply (select_text_drops_characters (txt "abcd") [FInt 1; FInt 0; FInt 1; FInt 0]).
  reflexivity.
Defined.

Lemma joint_follows_first_argument_witness :
  Forall (fun e => exists t, e = EStr t) (items (SList [EStr (txt "cd"); EStr (txt "e")]))
  /\ joint (SStr (txt "ab")) (SList [EStr (txt "cd"); EStr (txt "e")])
     = Ok (SStr (txt "abcde")).
Proof.
  assert (Forall (fun e => exists t, e = EStr t)
            (items (SList [EStr (txt "cd"); EStr (txt "e")]))) as Hall
    by (repeat constructor; eexists; reflexivity).
  split; [exact Hall|].
  destruct (joint_follows_first_argument (SList [EStr (txt "cd"); EStr (txt "e")]))
    as (_ & _ & _ & H & _).
  exact (H (txt "ab") Hall).
Defined.

Lemma joint_associative_witness :
  (forall a, SList [EInt 2] <> SStr a)
  /\ (let? xy := joint (STuple [EInt 1]) (SList [EInt 2]) in joint xy (SStr (txt "c")))
     = (let? yz := joint (SList [EInt 2]) (SStr (txt "c")) in joint (STuple [EInt 1]) yz).
Proof.
  split; [discriminate|].
  apply (joint_associative (STuple [EInt 1]) (SList [EInt 2]) (SStr (txt "c"))).
  left. discriminate.
Defined.

Lemma listmap_results_in_order_witness :
  Forall2 (fun a v => (fun p : Z * Z => Ok (fst p + snd p)) a = Ok v)
    [(1, 2); (3, 4)] [3; 7]
  /\ listmap (fun p : Z * Z => Ok (fst p + snd p)) [(1, 2); (3, 4)] = Ok [3; 7].
Proof.
  assert (Forall2 (fun a v => (fun p : Z * Z => Ok (fst p + snd p)) a = Ok v)
            [(1, 2); (3, 4)] [3; 7]) as Hall by (repeat constructor).
  split; [exact Hall|].
  destruct (listmap_results_in_order (fun p : Z * Z => Ok (fst p + snd p))
              [(1, 2); (3, 4)]) as (H & _).
  apply H. exact Hall.
Defined.

Lemma zip_iterables_pairs_witness :
  (Nat.min (length [1; 2; 3]) (length [4; 5]) < 3)%nat
  /\ collect zip_next 3 (zip_iterables [1; 2; 3] [4; 5])
     = Some (Ok [(1, 4); (2, 5)], ZipFinished).
Proof.
  split; [cbn; lia|].
  destruct (zip_iterables_pairs [1; 2; 3] [4; 5] 3) as [H _]; [cbn; lia|exact H].
Defined.

Lemma unique_first_occurrences_witness :
  (length [1; 1; 2; 1; 3; 2] < 7)%nat
  /\ exists yielded,
       collect unique_next 7 (unique [1; 1; 2; 1; 3; 2])
       = Some (Ok yielded, UniqueFinished)
       /\ NoDup yielded
       /\ (forall a, a ∈ yielded <-> a ∈ [1; 1; 2; 1; 3; 2])
       /\ yielded `sublist_of` [1; 1; 2; 1; 3; 2]
       /\ (forall l1 l2, [1; 1; 2; 1; 3; 2] = l1 ++ l2 ->
             exists y1,
               collect unique_next 7 (unique l1) = Some (Ok y1, UniqueFinished)
               /\ y1 `prefix_of` yielded).
Proof.
  split; [cbn; lia|].
  apply (unique_first_occurrences [1; 1; 2; 1; 3; 2] 7). cbn. lia.
Defined.

Lemma unique_idempotent_witness :
  (length [1; 1; 2] < 4)%nat
  /\ exists yielded,
       collect unique_next 4 (unique [1; 1; 2]) = Some (Ok yielded, UniqueFinished)
       /\ collect unique_next 4 (unique yielded) = Some (Ok yielded, UniqueFinished)
       /\ (NoDup [1; 1; 2] -> yielded = [1; 1; 2]).
Proof.
  split; [cbn; lia|].
  apply (unique_idempotent [1; 1; 2] 4). cbn. lia.
Defined.

Lemma take_while_within_partition_witness :
  (length [1; 2; 3; 10; 4] < 6)%nat
  /\ exists yielded,
       drain (fun n => n <? 5) 6 (take_while [1; 2; 3; 10; 4])
       = Some (yielded, Finished)
       /\ yielded `prefix_of` fst (partition (fun n => n <? 5) [1; 2; 3; 10; 4])
       /\ (snd (partition (fun n => n <? 5) [1; 2; 3; 10; 4]) = []
           <-> yielded = [1; 2; 3; 10; 4]).
Proof.
  split; [cbn; lia|].
  apply (take_while_within_partition (fun n => n <? 5) [1; 2; 3; 10; 4] 6). cbn. lia.
Defined.
